(** * AISearchAgent: a shallow embedding of [ai_search_agent.py]

    The agent asks a text service for a search phrase, types it into a
    browser, records one CSV row per search and loops.  Everything the
    program cannot decide on its own (random draws, what the service
    answers, which driver call raises, what the clock reads) is supplied by
    explicit environment records, so that every method is an executable
    function of its environment and of the agent's state.

    Strings are [String.string]; a character is one 8-bit code point
    (Latin-1), [len] is [String.length].  Floats that hold clock readings
    are rationals ([Q]): subtraction and comparison are then exact.

    What the program does to the outside is collected in a trace: log
    lines (without their colour prefix), calls of the text service, driver
    calls, sleeps, and of the console output the lines of a cycle, the
    final summary and the lines of [main]; banners and the countdown line
    are left out. *)

From Stdlib Require Import List String Ascii Bool Arith NArith ZArith QArith Lia.
From Stdlib Require Import DecimalString.
Import ListNotations.
Local Open Scope string_scope.
Local Open Scope nat_scope.

(** ** Python string operations used by the agent *)

Module PyStr.

Definition in_range (lo hi n : N) : bool := (N.leb lo n && N.leb n hi)%bool.

(** [str.lower] on one code point below 256: A-Z and the accented capitals
    U+00C0..U+00DE (the multiplication sign U+00D7 excepted) move up by 32. *)
Definition lower_char (c : ascii) : ascii :=
  let n := N_of_ascii c in
  if (in_range 65 90 n || (in_range 192 222 n && negb (N.eqb n 215)))%bool
  then ascii_of_N (n + 32) else c.

Fixpoint lower (s : string) : string :=
  match s with
  | EmptyString => EmptyString
  | String c r => String (lower_char c) (lower r)
  end.

(** [t in s] *)
Fixpoint contains (t s : string) : bool :=
  match s with
  | EmptyString => prefix t EmptyString
  | String _ r => (prefix t s || contains t r)%bool
  end.

(** characters removed by [str.strip()] without argument *)
Definition is_space (c : ascii) : bool :=
  let n := N_of_ascii c in
  (in_range 9 13 n || in_range 28 32 n || N.eqb n 133 || N.eqb n 160)%bool.

Fixpoint lstrip (p : ascii -> bool) (s : string) : string :=
  match s with
  | EmptyString => EmptyString
  | String c r => if p c then lstrip p r else s
  end.

Fixpoint rstrip (p : ascii -> bool) (s : string) : string :=
  match s with
  | EmptyString => EmptyString
  | String c r =>
      match rstrip p r with
      | EmptyString => if p c then EmptyString else String c EmptyString
      | r' => String c r'
      end
  end.

Definition strip_by (p : ascii -> bool) (s : string) : string :=
  rstrip p (lstrip p s).

Definition strip (s : string) : string := strip_by is_space s.

(** [s.strip(c)] for a one-character argument *)
Definition strip_char (c : ascii) (s : string) : string :=
  strip_by (Ascii.eqb c) s.

(** [sep.join(l)] *)
Definition join (sep : string) (l : list string) : string :=
  String.concat sep l.

(** [str(n)] for a non-negative integer *)
Definition of_nat (n : nat) : string :=
  NilZero.string_of_uint (Nat.to_uint n).

Definition of_Z (z : Z) : string :=
  NilZero.string_of_int (Z.to_int z).

(** [f"{x:.2f}"]: round half to even at two decimals. *)
Definition round_half_even (q : Q) : Z :=
  let n := Z.abs (Qnum q) in
  let d := Zpos (Qden q) in
  let fl := (n / d)%Z in
  let r := (n mod d)%Z in
  match (2 * r ?= d)%Z with
  | Lt => fl
  | Gt => (fl + 1)%Z
  | Eq => if Z.even fl then fl else (fl + 1)%Z
  end.

Definition two_digits (z : Z) : string :=
  if (z <? 10)%Z then "0" ++ of_Z z else of_Z z.

Definition fmt_2f (q : Q) : string :=
  let m := round_half_even (q * 100) in
  (if Qlt_le_dec q 0 then "-" else EmptyString)
    ++ of_Z (m / 100) ++ "." ++ two_digits (m mod 100).

(** [l[-n:]] *)
Definition last_n {A} (n : nat) (l : list A) : list A :=
  skipn (List.length l - n) l.

(** [random.choice(l)] with the draw [r] made explicit *)
Definition choice (r : nat) (l : list string) : string :=
  nth (r mod List.length l) l EmptyString.

End PyStr.

(** ** Exceptions, observable events and the agent's state *)

(** The exception classes the handlers of the program tell apart.
    [KeyboardInterrupt] is not an [Exception]; [TimeoutException] is one.
    The string is [str(e)]. *)
Inductive exn : Type :=
| KeyboardInterrupt
| TimeoutException (text : string)
| OtherException (text : string).

(** [isinstance(e, Exception)] *)
Definition is_Exception (e : exn) : bool :=
  match e with
  | KeyboardInterrupt => false
  | TimeoutException _ | OtherException _ => true
  end.

(** [str(e)] *)
Definition str_exn (e : exn) : string :=
  match e with
  | KeyboardInterrupt => EmptyString
  | TimeoutException t | OtherException t => t
  end.

Inductive level : Type := DEBUG | INFO | WARNING | ERROR.

Inductive driver_op : Type :=
| Launch                                (* webdriver.Edge(...) *)
| ExecuteScript (script : string)
| Get (url : string)
| WaitPresence (element_id : string)    (* WebDriverWait(driver, 15).until(...) *)
| FindElement (element_id : string)
| Clear
| SendKeys (keys : string)
| Click
| SendReturn                            (* send_keys(Keys.RETURN) *)
| Perform (moves : list (Z * Z))        (* the queued move_by_offset calls, performed *)
| CurrentUrl
| Quit.

(** What the program does to the outside world, in order.  Log messages
    are the source's texts without the colour prefixes. *)
Inductive event : Type :=
| EvLog (lvl : level) (msg : string)
| EvGenerateContent (prompt : string)   (* one call of the text service *)
| EvDriver (op : driver_op)
| EvSleep (seconds : Q)
| EvSummary (successful failed : nat) (success_rate : Q)
            (session_duration : Q) (total_planned : Z)
| EvCleanup                              (* cleanup() entered *)
| EvPrint (msg : string).

Record config : Type := {
  gemini_api_key : string;
  edge_driver_path : string;
  debug_mode : bool;
  max_cycles : Z;
  min_delay : Z;
  max_delay : Z
}.

(** The instance attributes of [AISearchAgent] that the methods read or
    write.  [driver] is [None] or a session (numbered by launch);
    [csv_file] is the rows of the run log, header first.  The two counters
    are the locals of [run]: they live here so that an increment made
    before a later exception of the same cycle is still there in the
    handler, as in Python.  [trace] collects the events. *)
Record agent : Type := {
  cfg : config;
  search_history : list string;
  driver : option nat;
  csv_file : list (list string);
  session_start_time : Q;
  successful_searches : nat;
  failed_searches : nat;
  trace : list event
}.

Definition set_history (h : list string) (a : agent) : agent :=
  {| cfg := cfg a; search_history := h; driver := driver a;
     csv_file := csv_file a; session_start_time := session_start_time a;
     successful_searches := successful_searches a;
     failed_searches := failed_searches a; trace := trace a |}.

Definition set_driver (d : option nat) (a : agent) : agent :=
  {| cfg := cfg a; search_history := search_history a; driver := d;
     csv_file := csv_file a; session_start_time := session_start_time a;
     successful_searches := successful_searches a;
     failed_searches := failed_searches a; trace := trace a |}.

Definition set_csv (f : list (list string)) (a : agent) : agent :=
  {| cfg := cfg a; search_history := search_history a; driver := driver a;
     csv_file := f; session_start_time := session_start_time a;
     successful_searches := successful_searches a;
     failed_searches := failed_searches a; trace := trace a |}.

Definition set_counters (s f : nat) (a : agent) : agent :=
  {| cfg := cfg a; search_history := search_history a; driver := driver a;
     csv_file := csv_file a; session_start_time := session_start_time a;
     successful_searches := s; failed_searches := f; trace := trace a |}.

Definition set_trace (t : list event) (a : agent) : agent :=
  {| cfg := cfg a; search_history := search_history a; driver := driver a;
     csv_file := csv_file a; session_start_time := session_start_time a;
     successful_searches := successful_searches a;
     failed_searches := failed_searches a; trace := t |}.

(** ** The monad of methods: state and exceptions *)

Inductive result (A : Type) : Type :=
| Ok (a : A)
| Raise (e : exn).
Arguments Ok {A} a.
Arguments Raise {A} e.

Definition M (A : Type) : Type := agent -> result A * agent.

Definition ret {A} (a : A) : M A := fun s => (Ok a, s).

Definition bind {A B} (m : M A) (k : A -> M B) : M B :=
  fun s =>
    match m s with
    | (Ok a, s') => k a s'
    | (Raise e, s') => (Raise e, s')
    end.

Definition raise {A} (e : exn) : M A := fun s => (Raise e, s).

(** [try: m  except ...]: [h e] is the handler whose clause matches [e],
    [None] when no clause does and [e] goes on propagating. *)
Definition try_except {A} (m : M A) (h : exn -> option (M A)) : M A :=
  fun s =>
    match m s with
    | (Raise e, s') =>
        match h e with
        | Some k => k s'
        | None => (Raise e, s')
        end
    | r => r
    end.

(** [try: m  except Exception as e: h e]; a [KeyboardInterrupt] passes. *)
Definition try_except_Exception {A} (m : M A) (h : exn -> M A) : M A :=
  try_except m (fun e => if is_Exception e then Some (h e) else None).

(** [try: m  finally: f] *)
Definition try_finally {A} (m : M A) (f : M unit) : M A :=
  fun s =>
    match m s with
    | (Ok a, s') => bind f (fun _ => ret a) s'
    | (Raise e, s') => bind f (fun _ => raise e) s'
    end.

Definition gets {A} (f : agent -> A) : M A := fun s => (Ok (f s), s).
Definition modify (f : agent -> agent) : M unit := fun s => (Ok tt, f s).
Definition emit (ev : event) : M unit :=
  modify (fun s => set_trace (trace s ++ [ev])%list s).

Declare Scope agent_scope.
Delimit Scope agent_scope with agent.
Notation "x <- c1 ;; c2" := (bind c1 (fun x => c2))
  (at level 61, c1 at next level, right associativity) : agent_scope.
Notation "' pat <- c1 ;; c2" := (bind c1 (fun x => match x with pat => c2 end))
  (at level 61, pat pattern, c1 at next level, right associativity) : agent_scope.
Notation "c1 ;; c2" := (bind c1 (fun _ => c2))
  (at level 61, right associativity) : agent_scope.
Local Open Scope agent_scope.

Definition log (lvl : level) (msg : string) : M unit := emit (EvLog lvl msg).

(** an external call that raises when the environment says so *)
Definition may_raise (fault : option exn) : M unit :=
  match fault with
  | None => ret tt
  | Some e => raise e
  end.

(** [time.sleep(seconds)]; Ctrl-C during the sleep raises. *)
Definition sleep (seconds : Q) (interrupted : bool) : M unit :=
  emit (EvSleep seconds) ;;
  if interrupted then raise KeyboardInterrupt else ret tt.

(** a driver call: recorded, then it returns or raises *)
Definition driver_call (op : driver_op) (fault : option exn) : M unit :=
  emit (EvDriver op) ;; may_raise fault.

(** ** Query generation *)

Definition categories : list string :=
  ["technology"; "current events"; "pop culture"; "science";
   "entertainment"; "sports"; "health"; "travel"; "food";
   "history"; "nature"; "space"; "education"; "business"].

Definition query_types : list string :=
  ["question"; "fact"; "news search"; "definition";
   "how to"; "what is"; "why does"; "comparison"].

Definition complexity_levels : list string :=
  ["simple"; "detailed"; "comprehensive"].

Definition forbidden_terms : list string :=
  ["explicit"; "illegal"; "hack"; "crack"].

(** [_validate_query] *)
Definition _validate_query (query : string) : bool :=
  if (String.length query <? 3) then false
  else if (100 <? String.length query) then false
  else if existsb (fun term => PyStr.contains term (PyStr.lower query))
                  forbidden_terms then false
  else true.

Definition newline : string := String (ascii_of_nat 10) EmptyString.
Definition indent : string := "                ".

(** the f-string of [generate_search_query] *)
Definition build_prompt (history_context complexity query_type category : string)
  : string :=
  PyStr.join (newline ++ indent)
    [ EmptyString;
      history_context ++ "Generate a " ++ complexity ++ " " ++ query_type
        ++ " about " ++ category
        ++ " that would be suitable for a Bing search.";
      EmptyString;
      "Requirements:";
      "- Make it naturally human-like and interesting";
      "- 3-15 words maximum";
      "- Avoid repetition of recent topics";
      "- Be specific enough to get good search results";
      "- Safe for general audiences";
      EmptyString;
      "Category: " ++ category;
      "Type: " ++ query_type;
      "Complexity: " ++ complexity;
      EmptyString;
      "Respond with ONLY the search query, nothing else.";
      EmptyString ].

(** What the text service does on one call: [generate_content] followed by
    [response.text] returns a text or raises. *)
Inductive service_reply : Type :=
| Reply (text : string)
| ServiceRaises (e : exn).

(** The environment of one pass of the retry loop: the three random draws,
    the service's answer, and whether Ctrl-C arrives during the back-off. *)
Record attempt_env : Type := {
  pick_category : nat;
  pick_query_type : nat;
  pick_complexity : nat;
  reply : service_reply;
  backoff_interrupted : bool
}.

Record gen_env : Type := {
  attempt_env_of : nat -> attempt_env;   (* by attempt number 0, 1, 2 *)
  pick_fallback : nat
}.

Definition max_retries : nat := 3.

Definition generate_content (r : service_reply) (prompt : string) : M string :=
  emit (EvGenerateContent prompt) ;;
  match r with
  | Reply text => ret text
  | ServiceRaises e => raise e
  end.

(** [self.search_history.append(query)] and the trim to the last 20 *)
Definition remember (query : string) (history : list string) : list string :=
  let h := (history ++ [query])%list in
  if 20 <? List.length h then PyStr.last_n 20 h else h.

Definition double_quote : ascii := ascii_of_nat 34.
Definition single_quote : ascii := ascii_of_nat 39.

(** [response.text] stripped of white space, then of double quotes, then
    of single quotes *)
Definition clean_reply (text : string) : string :=
  PyStr.strip_char single_quote
    (PyStr.strip_char double_quote (PyStr.strip text)).

(** The body of the [for attempt in range(max_retries)] loop.  [Some t]
    is [return t] from inside the loop, [None] falls through to the next
    pass. *)
Definition generation_attempt (a : attempt_env) (attempt : nat)
  : M (option (string * string * string)) :=
  try_except_Exception
    (let category := PyStr.choice (pick_category a) categories in
     let query_type := PyStr.choice (pick_query_type a) query_types in
     let complexity := PyStr.choice (pick_complexity a) complexity_levels in
     history <- gets search_history ;;
     let history_context :=
       match history with
       | [] => EmptyString
       | _ => "Recent search topics: "
                ++ PyStr.join ", " (PyStr.last_n 3 history) ++ ". "
       end in
     let prompt := build_prompt history_context complexity query_type category in
     text <- generate_content (reply a) prompt ;;
     let query := clean_reply text in
     if _validate_query query then
       modify (fun s => set_history (remember query (search_history s)) s) ;;
       log INFO ("[AI] Generated query: " ++ query) ;;
       ret (Some (query, category, query_type))
     else ret None)
    (fun e =>
       log WARNING ("[WARNING] Query generation attempt "
                      ++ PyStr.of_nat (attempt + 1) ++ " failed: " ++ str_exn e) ;;
       (if attempt <? max_retries - 1
        then sleep (inject_Z (2 ^ Z.of_nat attempt)) (backoff_interrupted a)
        else ret tt) ;;
       ret None).

Fixpoint generation_loop (g : gen_env) (attempt remaining : nat)
  : M (option (string * string * string)) :=
  match remaining with
  | 0 => ret None
  | S k =>
      r <- generation_attempt (attempt_env_of g attempt) attempt ;;
      match r with
      | Some t => ret (Some t)
      | None => generation_loop g (S attempt) k
      end
  end.

(** the statements after the loop *)
Definition fallback_query (g : gen_env) : M (string * string * string) :=
  let fallback_query := "what is " ++ PyStr.choice (pick_fallback g) categories in
  log WARNING ("[WARNING] Using fallback query: " ++ fallback_query) ;;
  ret (fallback_query, "general", "fallback").

Definition generate_search_query (g : gen_env) : M (string * string * string) :=
  r <- generation_loop g 0 max_retries ;;
  match r with
  | Some t => ret t
  | None => fallback_query g
  end.

(** ** Searching *)

(** One keystroke of [_human_like_typing]: whether [send_keys] raises, the
    pause after the key, the occasional longer pause ([random() < 0.1]),
    and whether Ctrl-C arrives during either pause. *)
Record key_env : Type := {
  send_keys_fault : option exn;
  key_delay : Q;
  key_interrupted : bool;
  thinking_pause : option Q;
  thinking_interrupted : bool
}.

(** [_human_like_typing]: no handler of its own. *)
Fixpoint _human_like_typing (k : nat -> key_env) (i : nat) (text : string)
  : M unit :=
  match text with
  | EmptyString => ret tt
  | String c rest =>
      driver_call (SendKeys (String c EmptyString)) (send_keys_fault (k i)) ;;
      sleep (key_delay (k i)) (key_interrupted (k i)) ;;
      match thinking_pause (k i) with
      | Some p => sleep p (thinking_interrupted (k i))
      | None => ret tt
      end ;;
      _human_like_typing k (S i) rest
  end.

Record behavior_env : Type := {
  moves : list (Z * Z);          (* randint(2, 5) offsets in [-100, 100] *)
  perform_fault : option exn;
  scroll_distance : Z;           (* randint(300, 800) *)
  scroll_fault : option exn;
  browse_pause : Q;              (* uniform(1, 3) *)
  browse_interrupted : bool;
  scroll_back : bool;            (* random() < 0.3 *)
  scroll_back_fault : option exn
}.

(** the [try] block of [_simulate_human_behavior] *)
Definition behavior_steps (b : behavior_env) : M unit :=
  driver_call (Perform (moves b)) (perform_fault b) ;;
  driver_call
    (ExecuteScript ("window.scrollBy(0, " ++ PyStr.of_Z (scroll_distance b) ++ ");"))
    (scroll_fault b) ;;
  sleep (browse_pause b) (browse_interrupted b) ;;
  if scroll_back b
  then driver_call
         (ExecuteScript ("window.scrollBy(0, -"
                           ++ PyStr.of_Z (scroll_distance b / 2) ++ ");"))
         (scroll_back_fault b)
  else ret tt.

(** [_simulate_human_behavior] *)
Definition _simulate_human_behavior (b : behavior_env) : M unit :=
  try_except_Exception (behavior_steps b)
    (fun e => log DEBUG ("Human behavior simulation failed: " ++ str_exn e)).

Record exec_env : Type := {
  start_clock : Q;               (* time.time() on entry *)
  end_clock : Q;                 (* time.time() where the result is built *)
  get_fault : option exn;
  wait_box_fault : option exn;
  find_box_fault : option exn;
  clear_fault : option exn;
  keys : nat -> key_env;
  submit_pause : Q;              (* uniform(0.5, 2.0) *)
  submit_interrupted : bool;
  use_enter : bool;              (* random.choice([True, False]) *)
  enter_fault : option exn;
  find_button_fault : option exn;
  click_fault : option exn;
  wait_results_fault : option exn;
  behavior : behavior_env;
  current_url : string;
  current_url_fault : option exn
}.

(** the [try] block of [execute_search] *)
Definition search_body (x : exec_env) (query : string) (start_time : Q)
  : M (bool * string * Q) :=
  log INFO "[WEB] Navigating to Bing..." ;;
  driver_call (Get "https://www.bing.com") (get_fault x) ;;
  driver_call (WaitPresence "sb_form_q") (wait_box_fault x) ;;
  driver_call (FindElement "sb_form_q") (find_box_fault x) ;;
  driver_call Clear (clear_fault x) ;;
  _human_like_typing (keys x) 0 query ;;
  sleep (submit_pause x) (submit_interrupted x) ;;
  (if use_enter x
   then driver_call SendReturn (enter_fault x)
   else driver_call (FindElement "search_icon") (find_button_fault x) ;;
        driver_call Click (click_fault x)) ;;
  driver_call (WaitPresence "b_results") (wait_results_fault x) ;;
  _simulate_human_behavior (behavior x) ;;
  let execution_time := (end_clock x - start_time)%Q in
  driver_call CurrentUrl (current_url_fault x) ;;
  log INFO ("[OK] Search completed successfully in "
              ++ PyStr.fmt_2f execution_time ++ "s") ;;
  ret (true, current_url x, execution_time).

(** [execute_search] *)
Definition execute_search (x : exec_env) (query : string)
  : M (bool * string * Q) :=
  let start_time := start_clock x in
  try_except (search_body x query start_time)
    (fun e =>
       match e with
       | TimeoutException _ =>
           Some (log ERROR ("[TIMEOUT] Search timeout for query: " ++ query) ;;
                 ret (false, "timeout", (end_clock x - start_time)%Q))
       | OtherException _ =>
           Some (log ERROR ("[FAIL] Search failed: " ++ str_exn e) ;;
                 ret (false, "error: " ++ str_exn e, (end_clock x - start_time)%Q))
       | KeyboardInterrupt => None
       end).

(** ** The run log *)

Definition csv_header : list string :=
  ["timestamp"; "generated_query"; "search_url";
   "response_status"; "execution_time"; "category"; "query_type"].

Record log_env : Type := {
  timestamp : string;            (* datetime.now().isoformat() *)
  write_fault : option exn       (* open(..., 'a') raising *)
}.

(** [_log_search_result] *)
Definition _log_search_result (l : log_env) (query category query_type : string)
    (success : bool) (url : string) (execution_time : Q) : M unit :=
  let status := if success then "success" else "failed" in
  may_raise (write_fault l) ;;
  modify (fun s =>
    set_csv (csv_file s ++
               [[timestamp l; query; url; status; PyStr.fmt_2f execution_time;
                 category; query_type]])%list s).

(** ** Pacing, browser launch and recovery *)

Record delay_env : Type := {
  delay_draw : Z;                (* the draw of random.randint *)
  interrupted_at : option nat    (* the countdown second hit by Ctrl-C *)
}.

Fixpoint countdown (remaining : nat) (interrupted_at : option nat) : M unit :=
  match remaining with
  | 0 => ret tt
  | S k =>
      sleep 1 (match interrupted_at with
               | Some j => j =? remaining
               | None => false
               end) ;;
      countdown k interrupted_at
  end.

(** [_random_delay]; [random.randint(a, b)] raises [ValueError] on an
    empty range. *)
Definition _random_delay (d : delay_env) : M unit :=
  c <- gets cfg ;;
  (if (max_delay c <? min_delay c)%Z
   then raise (OtherException "empty range for randrange()")
   else ret tt) ;;
  let delay := (min_delay c + delay_draw d mod (max_delay c - min_delay c + 1))%Z in
  log INFO ("[WAIT] Waiting " ++ PyStr.of_Z delay
              ++ " seconds before next search...") ;;
  countdown (Z.to_nat delay) (interrupted_at d).

Record browser_env : Type := {
  service_fault : option exn;    (* driver manager / Service(...) *)
  launch_fault : option exn;     (* webdriver.Edge(...) *)
  script_fault : option exn      (* the execute_script after the launch *)
}.

Definition next_session (d : option nat) : nat :=
  match d with
  | Some n => S n
  | None => 0
  end.

(** [_initialize_browser]: logs and re-raises. *)
Definition _initialize_browser (b : browser_env) : M unit :=
  try_except_Exception
    (may_raise (service_fault b) ;;
     driver_call Launch (launch_fault b) ;;
     modify (fun s => set_driver (Some (next_session (driver s))) s) ;;
     driver_call
       (ExecuteScript
          "Object.defineProperty(navigator, 'webdriver', {get: () => undefined})")
       (script_fault b) ;;
     log INFO "[OK] Microsoft Edge initialized successfully")
    (fun e =>
       log ERROR ("[FAIL] Failed to initialize Edge browser: " ++ str_exn e) ;;
       raise e).

Record recover_env : Type := {
  quit_fault : option exn;
  cooldown_interrupted : bool;
  relaunch : browser_env
}.

(** [_recover_from_browser_crash] *)
Definition _recover_from_browser_crash (r : recover_env) : M bool :=
  try_except_Exception
    (log WARNING "[RECOVER] Attempting browser recovery..." ;;
     d <- gets driver ;;
     match d with
     | Some _ =>
         try_except_Exception (driver_call Quit (quit_fault r)) (fun _ => ret tt)
     | None => ret tt
     end ;;
     sleep 5 (cooldown_interrupted r) ;;
     _initialize_browser (relaunch r) ;;
     ret true)
    (fun e =>
       log ERROR ("[FAIL] Browser recovery failed: " ++ str_exn e) ;;
       ret false).

(** ** The orchestrator *)

Definition print (msg : string) : M unit := emit (EvPrint msg).

(** [a / b] on integers: [ZeroDivisionError] when [b] is 0. *)
Definition truediv (a b : Z) : M Q :=
  if (b =? 0)%Z then raise (OtherException "division by zero")
  else ret (inject_Z a / inject_Z b)%Q.

(** [_print_final_summary]; [now] is the reading of [datetime.now()]. *)
Definition _print_final_summary (now : Q) (successful failed : nat)
    (total_planned : Z) : M unit :=
  let total_executed := successful + failed in
  success_rate <-
    (if 0 <? total_executed
     then q <- truediv (Z.of_nat successful) (Z.of_nat total_executed) ;;
          ret (q * 100)%Q
     else ret 0%Q) ;;
  start <- gets session_start_time ;;
  let session_duration := (now - start)%Q in
  emit (EvSummary successful failed success_rate session_duration total_planned).

Record cycle_env : Type := {
  gen : gen_env;
  exec : exec_env;
  logging : log_env;
  delay : delay_env;
  recovery : recover_env
}.

Definition count_success : M unit :=
  modify (fun s => set_counters (S (successful_searches s)) (failed_searches s) s).

Definition count_failure : M unit :=
  modify (fun s => set_counters (successful_searches s) (S (failed_searches s)) s).

(** the [try] block of one pass of the loop of [run] *)
Definition cycle_body (e : cycle_env) (cycles : Z) (cycle : nat) : M unit :=
  print ("[CYCLE] Cycle " ++ PyStr.of_nat cycle ++ "/" ++ PyStr.of_Z cycles) ;;
  ' (query, category, query_type) <- generate_search_query (gen e) ;;
  ' (success, url, execution_time) <- execute_search (exec e) query ;;
  _log_search_result (logging e) query category query_type success url
                     execution_time ;;
  (if success
   then count_success ;; print ("[SUCCESS] Success: " ++ query)
   else count_failure ;; print ("[FAIL] Failed: " ++ query)) ;;
  done <- gets successful_searches ;;
  print ("[PROGRESS] Progress: " ++ PyStr.of_nat done ++ "/"
           ++ PyStr.of_nat cycle ++ " successful") ;;
  if (Z.of_nat cycle <? cycles)%Z then _random_delay (delay e) else ret tt.

Inductive control : Type := Continue | Break.

(** [if "driver" in str(e).lower() or "session" in str(e).lower()] *)
Definition names_browser (text : string) : bool :=
  (PyStr.contains "driver" (PyStr.lower text)
   || PyStr.contains "session" (PyStr.lower text))%bool.

(** one pass of the loop with its two [except] clauses *)
Definition cycle_step (e : cycle_env) (cycles : Z) (cycle : nat) : M control :=
  try_except
    (cycle_body e cycles cycle ;; ret Continue)
    (fun x =>
       match x with
       | KeyboardInterrupt =>
           Some (log INFO "[WARNING] User interrupted execution" ;; ret Break)
       | _ =>
           Some (log ERROR ("[FAIL] Cycle " ++ PyStr.of_nat cycle
                              ++ " failed: " ++ str_exn x) ;;
                 count_failure ;;
                 if names_browser (str_exn x)
                 then recovered <- _recover_from_browser_crash (recovery e) ;;
                      if recovered then ret Continue
                      else log ERROR "[FAIL] Cannot continue - browser recovery failed" ;;
                           ret Break
                 else ret Continue)
       end).

(** [for cycle in range(1, cycles + 1)], from [cycle] on *)
Fixpoint run_loop (env : nat -> cycle_env) (cycles : Z) (cycle remaining : nat)
  : M unit :=
  match remaining with
  | 0 => ret tt
  | S k =>
      c <- cycle_step (env cycle) cycles cycle ;;
      match c with
      | Break => ret tt
      | Continue => run_loop env cycles (S cycle) k
      end
  end.

Record run_env : Type := {
  cycle_env_of : nat -> cycle_env;   (* by cycle number, from 1 *)
  clock_at_summary : Q
}.

(** the statements of [run] after the loop *)
Definition finish_run (r : run_env) (cycles : Z) : M unit :=
  successful <- gets successful_searches ;;
  failed <- gets failed_searches ;;
  _print_final_summary (clock_at_summary r) successful failed cycles.

(** [run] *)
Definition run (r : run_env) (cycles : option Z) : M unit :=
  c <- gets cfg ;;
  let cycles := match cycles with
                | Some n => n
                | None => max_cycles c
                end in
  log INFO ("[START] Starting AI Search Agent - " ++ PyStr.of_Z cycles
              ++ " cycles planned") ;;
  modify (set_counters 0 0) ;;
  run_loop (cycle_env_of r) cycles 1 (Z.to_nat cycles) ;;
  finish_run r cycles.

(** ** Construction, teardown and the entry point *)

(** What [load_config] finds in the environment; the three integers are
    taken as already parsed. *)
Record os_environ : Type := {
  GEMINI_API_KEY : option string;
  EDGE_DRIVER_PATH : option string;
  DEBUG_MODE : option string;
  MAX_SEARCH_CYCLES : option Z;
  MIN_DELAY : option Z;
  MAX_DELAY : option Z
}.

Definition getenv {A} (v : option A) (default : A) : A :=
  match v with
  | Some x => x
  | None => default
  end.

Definition set_cfg (c : config) (a : agent) : agent :=
  {| cfg := c; search_history := search_history a; driver := driver a;
     csv_file := csv_file a; session_start_time := session_start_time a;
     successful_searches := successful_searches a;
     failed_searches := failed_searches a; trace := trace a |}.

Definition set_start (t : Q) (a : agent) : agent :=
  {| cfg := cfg a; search_history := search_history a; driver := driver a;
     csv_file := csv_file a; session_start_time := t;
     successful_searches := successful_searches a;
     failed_searches := failed_searches a; trace := trace a |}.

(** [load_config] *)
Definition load_config (o : os_environ) : M unit :=
  let key := getenv (GEMINI_API_KEY o) EmptyString in
  modify (set_cfg
    {| gemini_api_key := key;
       edge_driver_path := getenv (EDGE_DRIVER_PATH o) "auto";
       debug_mode := String.eqb (PyStr.lower (getenv (DEBUG_MODE o) "False")) "true";
       max_cycles := getenv (MAX_SEARCH_CYCLES o) 10%Z;
       min_delay := getenv (MIN_DELAY o) 5%Z;
       max_delay := getenv (MAX_DELAY o) 45%Z |}) ;;
  if (String.eqb key EmptyString || String.eqb key "your_gemini_api_key_here")%bool
  then raise (OtherException "GEMINI_API_KEY not set in .env file")
  else ret tt.

(** [_initialize_gemini]: logs and re-raises. *)
Definition _initialize_gemini (fault : option exn) : M unit :=
  try_except_Exception
    (may_raise fault ;;
     log INFO "[OK] Gemini AI initialized successfully")
    (fun e =>
       log ERROR ("[FAIL] Failed to initialize Gemini AI: " ++ str_exn e) ;;
       raise e).

(** [_setup_csv_logging] *)
Definition _setup_csv_logging (stamp : string) (fault : option exn) : M unit :=
  let csv_filename := "search_log_" ++ stamp ++ ".csv" in
  may_raise fault ;;
  modify (set_csv [csv_header]) ;;
  log INFO ("[LOG] CSV logging initialized: " ++ csv_filename).

Record startup_env : Type := {
  environ : os_environ;
  logging_fault : option exn;    (* setup_logging *)
  clock_at_start : Q;            (* datetime.now() *)
  gemini_fault : option exn;
  browser : browser_env;
  file_stamp : string;           (* strftime('%Y%m%d_%H%M%S') *)
  csv_fault : option exn         (* open(..., 'w') raising *)
}.

(** the object before [__init__] has run *)
Definition new_object : agent :=
  {| cfg := {| gemini_api_key := EmptyString; edge_driver_path := EmptyString;
               debug_mode := false;
               max_cycles := 0; min_delay := 0; max_delay := 0 |};
     search_history := []; driver := None; csv_file := [];
     session_start_time := 0; successful_searches := 0; failed_searches := 0;
     trace := [] |}.

(** [AISearchAgent.__init__] *)
Definition __init__ (u : startup_env) : M unit :=
  load_config (environ u) ;;
  may_raise (logging_fault u) ;;
  modify (set_driver None) ;;
  modify (set_history []) ;;
  modify (set_start (clock_at_start u)) ;;
  _initialize_gemini (gemini_fault u) ;;
  _initialize_browser (browser u) ;;
  _setup_csv_logging (file_stamp u) (csv_fault u).

(** [cleanup] *)
Definition cleanup (fault : option exn) : M unit :=
  emit EvCleanup ;;
  try_except_Exception
    (d <- gets driver ;;
     match d with
     | Some _ =>
         driver_call Quit fault ;;
         log INFO "[OK] Browser cleanup completed"
     | None => ret tt
     end)
    (fun e => log WARNING ("[WARNING] Cleanup warning: " ++ str_exn e)).

Record main_env : Type := {
  startup : startup_env;
  running : run_env;
  cleanup_fault : option exn
}.

(** The handlers and the [finally] of [main].  [bound] tells whether the
    name [agent] was bound, that is whether [__init__] returned: the
    [except Exception] clause reads [agent.config]. *)
Definition main_handlers (bound : bool) (e : exn) : option (M unit) :=
  match e with
  | KeyboardInterrupt => Some (print "[WARNING] Program interrupted by user")
  | _ =>
      Some (print ("[FATAL] Fatal error: " ++ str_exn e) ;;
            if bound
            then c <- gets cfg ;;
                 if debug_mode c then print "traceback" else ret tt
            else raise (OtherException
                          "local variable 'agent' referenced before assignment"))
  end.

(** [main]: [with AISearchAgent() as agent: agent.run()] inside
    [try ... except ... finally]. *)
Definition main (m : main_env) : M unit :=
  try_finally
    (fun s =>
       match __init__ (startup m) s with
       | (Raise e, s1) =>
           (* the constructor raised: the [with] block was never entered *)
           try_except (raise e) (main_handlers false) s1
       | (Ok _, s1) =>
           try_except
             (try_finally (run (running m) None) (cleanup (cleanup_fault m)))
             (main_handlers true) s1
       end)
    (print "[EXIT] AI Search Agent terminated").

(** ** Observations on states and traces *)

Definition history_bounded (s : agent) : Prop :=
  List.length (search_history s) <= 20.

(** A relation between the state before and after a method that holds
    across every method built from steps that satisfy it. *)
Definition stable {A} (R : agent -> agent -> Prop) (m : M A) : Prop :=
  forall s r s', m s = (r, s') -> R s s'.

(** the events of every method but [_print_final_summary] and [cleanup] *)
Definition plain (ev : event) : bool :=
  match ev with
  | EvSummary _ _ _ _ _ | EvCleanup => false
  | _ => true
  end.

(** Sequencing needs the relation reflexive and transitive. *)
Class Steady (R : agent -> agent -> Prop) : Prop := {
  R_refl : forall s, R s s;
  R_trans : forall s1 s2 s3, R s1 s2 -> R s2 s3 -> R s1 s3
}.

(** The relations kept by every step that does not write the log or the
    counters: kept when a plain event is added to the trace, blind to the
    driver, the configuration and the start time, and kept by the two ways
    the history is written. *)
Class Framing (R : agent -> agent -> Prop) : Prop := {
  framing_steady :: Steady R;
  R_event : forall s ev,
      plain ev = true -> R s (set_trace (trace s ++ [ev])%list s);
  R_driver : forall s d, R s (set_driver d s);
  R_cfg : forall s c, R s (set_cfg c s);
  R_start : forall s t, R s (set_start t s);
  R_remember : forall s q, R s (set_history (remember q (search_history s)) s);
  R_reset : forall s, R s (set_history [] s)
}.

(** ... and to the run log *)
Class CsvBlind (R : agent -> agent -> Prop) : Prop :=
  R_csv : forall s f, R s (set_csv f s).

(** ... and to the two counters *)
Class CounterBlind (R : agent -> agent -> Prop) : Prop :=
  R_counters : forall s a b, R s (set_counters a b s).

(** ... and kept when the summary is printed *)
Class SummaryBlind (R : agent -> agent -> Prop) : Prop :=
  R_summary : forall s a b c d e,
      R s (set_trace (trace s ++ [EvSummary a b c d e])%list s).

(** ... and when [cleanup] is entered *)
Class CleanupBlind (R : agent -> agent -> Prop) : Prop :=
  R_cleanup : forall s, R s (set_trace (trace s ++ [EvCleanup])%list s).

Definition is_service_call (ev : event) : bool :=
  match ev with
  | EvGenerateContent _ => true
  | _ => false
  end.

(** how many times the text service was called *)
Definition service_calls (t : list event) : nat :=
  List.length (filter is_service_call t).

(** A pass of the retry loop that fails without an interrupt: the service
    raises an [Exception] (and Ctrl-C does not arrive during the back-off
    sleep, which only passes 0 and 1 have), or the answer is rejected. *)
Definition attempt_fails (attempt : nat) (a : attempt_env) : Prop :=
  match reply a with
  | Reply text => _validate_query (clean_reply text) = false
  | ServiceRaises e =>
      is_Exception e = true /\
      (attempt < max_retries - 1 -> backoff_interrupted a = false)
  end.

(** ** Sample environments *)

Module Sample.

Definition settings : config :=
  {| gemini_api_key := "k3y"; edge_driver_path := "auto"; debug_mode := false;
     max_cycles := 2; min_delay := 1; max_delay := 2 |}.

(** an agent as [__init__] leaves it *)
Definition ready : agent :=
  {| cfg := settings; search_history := []; driver := Some 0;
     csv_file := [csv_header]; session_start_time := 0;
     successful_searches := 0; failed_searches := 0; trace := [] |}.

Definition answers (text : string) : attempt_env :=
  {| pick_category := 0; pick_query_type := 5; pick_complexity := 0;
     reply := Reply text; backoff_interrupted := false |}.

Definition outage : attempt_env :=
  {| pick_category := 0; pick_query_type := 5; pick_complexity := 0;
     reply := ServiceRaises (OtherException "503 service unavailable");
     backoff_interrupted := false |}.

Definition service_up (text : string) : gen_env :=
  {| attempt_env_of := fun _ => answers text; pick_fallback := 3 |}.

(** an outage, then a rejected answer, then an outage *)
Definition service_down : gen_env :=
  {| attempt_env_of := fun i => match i with
                                | 1 => answers "how to hack wifi"
                                | _ => outage
                                end;
     pick_fallback := 3 |}.

Definition keystroke : key_env :=
  {| send_keys_fault := None; key_delay := 1 # 10; key_interrupted := false;
     thinking_pause := None; thinking_interrupted := false |}.

Definition browsing : behavior_env :=
  {| moves := [(10, -20); (-5, 40)]%Z; perform_fault := None;
     scroll_distance := 500; scroll_fault := None; browse_pause := 2;
     browse_interrupted := false; scroll_back := true;
     scroll_back_fault := None |}.

Definition page_ok : exec_env :=
  {| start_clock := 100; end_clock := 107;
     get_fault := None; wait_box_fault := None; find_box_fault := None;
     clear_fault := None; keys := fun _ => keystroke;
     submit_pause := 1; submit_interrupted := false; use_enter := true;
     enter_fault := None; find_button_fault := None; click_fault := None;
     wait_results_fault := None; behavior := browsing;
     current_url := "https://www.bing.com/search?q=tides";
     current_url_fault := None |}.

(** the search box never appears *)
Definition page_hangs : exec_env :=
  {| start_clock := 100; end_clock := 115;
     get_fault := None;
     wait_box_fault := Some (TimeoutException "Message: ");
     find_box_fault := None;
     clear_fault := None; keys := fun _ => keystroke;
     submit_pause := 1; submit_interrupted := false; use_enter := true;
     enter_fault := None; find_button_fault := None; click_fault := None;
     wait_results_fault := None; behavior := browsing;
     current_url := EmptyString; current_url_fault := None |}.

(** the system clock is set back while the search runs *)
Definition clock_set_back : exec_env :=
  {| start_clock := 100; end_clock := 97;
     get_fault := None; wait_box_fault := None; find_box_fault := None;
     clear_fault := None; keys := fun _ => keystroke;
     submit_pause := 1; submit_interrupted := false; use_enter := true;
     enter_fault := None; find_button_fault := None; click_fault := None;
     wait_results_fault := None; behavior := browsing;
     current_url := "https://www.bing.com/search?q=tides";
     current_url_fault := None |}.



Definition stamp (t : string) : log_env :=
  {| timestamp := t; write_fault := None |}.

Definition short_wait : delay_env :=
  {| delay_draw := 0; interrupted_at := None |}.

Definition relaunch_ok : recover_env :=
  {| quit_fault := None; cooldown_interrupted := false;
     relaunch := {| service_fault := None; launch_fault := None;
                    script_fault := None |} |}.

Definition cycle_ok (t : string) : cycle_env :=
  {| gen := service_up "why do tides change"; exec := page_ok;
     logging := stamp t; delay := short_wait; recovery := relaunch_ok |}.

Definition relaunch_fails : recover_env :=
  {| quit_fault := Some (OtherException "invalid session id");
     cooldown_interrupted := false;
     relaunch := {| service_fault := None;
                    launch_fault := Some (OtherException "msedgedriver not found");
                    script_fault := None |} |}.

(** the search succeeds, the write to the log raises [text] *)
Definition cycle_log_raises (text : string) (r : recover_env) : cycle_env :=
  {| gen := service_up "why do tides change"; exec := page_ok;
     logging := {| timestamp := "2025-01-01T10:00:00";
                   write_fault := Some (OtherException text) |};
     delay := short_wait; recovery := r |}.

Definition cycle_hangs (t : string) : cycle_env :=
  {| gen := service_up "why do tides change"; exec := page_hangs;
     logging := stamp t; delay := short_wait; recovery := relaunch_ok |}.

(** two searches that succeed *)
Definition two_good_cycles : run_env :=
  {| cycle_env_of := fun i => match i with
                              | 1 => cycle_ok "2025-01-01T10:00:00"
                              | _ => cycle_ok "2025-01-01T10:01:00"
                              end;
     clock_at_summary := 200 |}.

(** the log file cannot be opened in the first cycle *)
Definition log_locked : run_env :=
  {| cycle_env_of := fun i =>
       match i with
       | 1 => cycle_log_raises "[Errno 13] Permission denied" relaunch_ok
       | _ => cycle_ok "2025-01-01T10:01:00"
       end;
     clock_at_summary := 200 |}.

(** every cycle loses its browser session and the relaunch fails *)
Definition session_lost : run_env :=
  {| cycle_env_of := fun _ => cycle_log_raises "invalid session id" relaunch_fails;
     clock_at_summary := 200 |}.

(** Ctrl-C during the countdown after the first search *)
Definition interrupted_run : run_env :=
  {| cycle_env_of := fun _ =>
       {| gen := service_up "why do tides change"; exec := page_ok;
          logging := stamp "2025-01-01T10:00:00";
          delay := {| delay_draw := 0; interrupted_at := Some 1 |};
          recovery := relaunch_ok |};
     clock_at_summary := 200 |}.

(** an agent configured with min_delay above max_delay *)
Definition misconfigured : agent :=
  {| cfg := {| gemini_api_key := "k3y"; edge_driver_path := "auto";
               debug_mode := false; max_cycles := 2; min_delay := 5;
               max_delay := 3 |};
     search_history := []; driver := Some 0;
     csv_file := [csv_header]; session_start_time := 0;
     successful_searches := 0; failed_searches := 0; trace := [] |}.

Definition environment : os_environ :=
  {| GEMINI_API_KEY := Some "k3y"; EDGE_DRIVER_PATH := None;
     DEBUG_MODE := None; MAX_SEARCH_CYCLES := Some 2%Z;
     MIN_DELAY := Some 1%Z; MAX_DELAY := Some 2%Z |}.

Definition launch_ok : browser_env :=
  {| service_fault := None; launch_fault := None; script_fault := None |}.

Definition startup_ok : startup_env :=
  {| environ := environment; logging_fault := None; clock_at_start := 0;
     gemini_fault := None; browser := launch_ok;
     file_stamp := "20250101_100000"; csv_fault := None |}.

(** the browser starts, then the log file cannot be created *)
Definition startup_log_locked : startup_env :=
  {| environ := environment; logging_fault := None; clock_at_start := 0;
     gemini_fault := None; browser := launch_ok;
     file_stamp := "20250101_100000";
     csv_fault := Some (OtherException "[Errno 13] Permission denied") |}.

Definition program_ok : main_env :=
  {| startup := startup_ok; running := two_good_cycles; cleanup_fault := None |}.

Definition program_log_locked : main_env :=
  {| startup := startup_log_locked; running := two_good_cycles;
     cleanup_fault := None |}.

End Sample.

(** the bound on the history survives from [s] to [s'] *)
Definition keeps_history_bound (s s' : agent) : Prop :=
  history_bounded s -> history_bounded s'.

(** the run log is the same in [s] and [s'] *)
Definition same_csv (s s' : agent) : Prop := csv_file s' = csv_file s.

(** a sequence of [generate_search_query] calls, whatever each one does *)
Fixpoint generate_calls (gs : list gen_env) (s : agent) : agent :=
  match gs with
  | [] => s
  | g :: rest => generate_calls rest (snd (generate_search_query g s))
  end.

(** the columns of a row of the run log *)
Definition search_url (row : list string) : string := nth 2 row EmptyString.
Definition response_status (row : list string) : string := nth 3 row EmptyString.
Definition row_timestamp (row : list string) : string := nth 0 row EmptyString.

(** the rows after the header *)
Definition data_rows (s : agent) : list (list string) := tl (csv_file s).

Definition is_interrupt (f : option exn) : bool :=
  match f with
  | Some KeyboardInterrupt => true
  | _ => false
  end.





Definition is_recovery_start (ev : event) : bool :=
  match ev with
  | EvLog WARNING msg => String.eqb msg "[RECOVER] Attempting browser recovery..."
  | _ => false
  end.

(** how many times [_recover_from_browser_crash] was entered *)
Definition recovery_attempts (t : list event) : nat :=
  List.length (filter is_recovery_start t).

(** the state in which the [except Exception] clause of the loop has logged
    the exception [x] of cycle [cycle] and counted the failure *)
Definition failure_counted (cycle : nat) (x : exn) (s : agent) : agent :=
  set_counters (successful_searches s) (S (failed_searches s))
    (set_trace
       (trace s ++
          [EvLog ERROR ("[FAIL] Cycle " ++ PyStr.of_nat cycle ++ " failed: "
                          ++ str_exn x)])%list s).

(** the state in which the loop has given up after a failed recovery *)
Definition given_up (s : agent) : agent :=
  set_trace
    (trace s ++
       [EvLog ERROR "[FAIL] Cannot continue - browser recovery failed"])%list s.

(** no recovery was attempted between [s] and [s'] *)
Definition quiet (s s' : agent) : Prop :=
  recovery_attempts (trace s') = recovery_attempts (trace s).

(** neither the run log nor the counters differ between [s] and [s'] *)
Definition untouched (s s' : agent) : Prop :=
  csv_file s' = csv_file s /\
  successful_searches s' = successful_searches s /\
  failed_searches s' = failed_searches s.

(** From [s], the [try] blocks of the cycles [cycle], [cycle + 1], ... of
    the loop all run to their end, [remaining] of them: each search
    returned an outcome, the row was written and the delay passed. *)
Fixpoint cycles_complete (env : nat -> cycle_env) (cycles : Z)
    (cycle remaining : nat) (s : agent) : Prop :=
  match remaining with
  | 0 => True
  | S k =>
      exists s', cycle_body (env cycle) cycles cycle s = (Ok tt, s') /\
                 cycles_complete env cycles (S cycle) k s'
  end.

(** the rows that carry [status] in the response_status column *)
Definition rows_with (status : string) (rows : list (list string)) : nat :=
  List.length (filter (fun row => String.eqb (response_status row) status) rows).

(** the state in which [run] enters its loop *)
Definition loop_entry (cycles : Z) (s : agent) : agent :=
  set_counters 0 0
    (set_trace
       (trace s ++
          [EvLog INFO ("[START] Starting AI Search Agent - " ++ PyStr.of_Z cycles
                         ++ " cycles planned")])%list s).

Definition is_cycle_start (ev : event) : bool :=
  match ev with
  | EvPrint msg => prefix "[CYCLE]" msg
  | _ => false
  end.

(** how many passes of the loop were begun *)
Definition cycles_started (t : list event) : nat :=
  List.length (filter is_cycle_start t).

Definition is_cleanup (ev : event) : bool :=
  match ev with
  | EvCleanup => true
  | _ => false
  end.

Definition is_summary (ev : event) : bool :=
  match ev with
  | EvSummary _ _ _ _ _ => true
  | _ => false
  end.

(** how many times [cleanup] was entered, the summary printed *)
Definition cleanups (t : list event) : nat := List.length (filter is_cleanup t).
Definition summaries (t : list event) : nat := List.length (filter is_summary t).

(** [cleanup] was not entered, the summary not printed, between [s] and [s'] *)
Definition no_cleanup (s s' : agent) : Prop :=
  cleanups (trace s') = cleanups (trace s).
Definition no_summary (s s' : agent) : Prop :=
  summaries (trace s') = summaries (trace s).

(** Ctrl-C does not arrive while the browser is being recovered *)
Definition recovery_uninterrupted (r : recover_env) : bool :=
  (negb (cooldown_interrupted r) && negb (is_interrupt (quit_fault r))
   && negb (is_interrupt (service_fault (relaunch r)))
   && negb (is_interrupt (launch_fault (relaunch r)))
   && negb (is_interrupt (script_fault (relaunch r))))%bool.

(** a method that lets no [KeyboardInterrupt] out *)
Definition raises_only_Exception {A} (m : M A) : Prop :=
  forall s e s', m s = (Raise e, s') -> is_Exception e = true.

Definition planned_cycles (cycles : option Z) (s : agent) : Z :=
  match cycles with
  | Some n => n
  | None => max_cycles (cfg s)
  end.

(** ** Further observations *)

Definition first_char (s : string) : option ascii :=
  match s with
  | EmptyString => None
  | String c _ => Some c
  end.

Fixpoint last_char (s : string) : option ascii :=
  match s with
  | EmptyString => None
  | String c EmptyString => Some c
  | String _ r => last_char r
  end.

(** the text sent to the page by [send_keys], call after call *)
Fixpoint typed (t : list event) : string :=
  match t with
  | [] => EmptyString
  | EvDriver (SendKeys keys) :: rest => keys ++ typed rest
  | _ :: rest => typed rest
  end.

Definition is_send_keys (ev : event) : bool :=
  match ev with
  | EvDriver (SendKeys _) => true
  | _ => false
  end.

Definition is_sleep (ev : event) : bool :=
  match ev with
  | EvSleep _ => true
  | _ => false
  end.

(** how many times [time.sleep] was called *)
Definition sleeps (t : list event) : nat := List.length (filter is_sleep t).

(** [load_config] finds no usable API key *)
Definition key_missing (o : os_environ) : bool :=
  match GEMINI_API_KEY o with
  | None => true
  | Some k => (String.eqb k EmptyString || String.eqb k "your_gemini_api_key_here")%bool
  end.

Definition is_launch (ev : event) : bool :=
  match ev with
  | EvDriver Launch => true
  | _ => false
  end.

(** how many browsers were started *)
Definition launches (t : list event) : nat := List.length (filter is_launch t).

(** the state in which the loop has taken note of Ctrl-C *)
Definition interrupt_noted (s : agent) : agent :=
  set_trace (trace s ++ [EvLog INFO "[WARNING] User interrupted execution"])%list s.

(** the relaunch meets no fault *)
Definition relaunch_clean (b : browser_env) : bool :=
  match service_fault b, launch_fault b, script_fault b with
  | None, None, None => true
  | _, _, _ => false
  end.

Definition is_quit (ev : event) : bool :=
  match ev with
  | EvDriver Quit => true
  | _ => false
  end.

(** how many times the driver was told to quit *)
Definition quits (t : list event) : nat := List.length (filter is_quit t).

(** a data row as the analyzer expects it *)
Definition well_formed_row (row : list string) : Prop :=
  List.length row = 7 /\
  (response_status row = "success" \/ response_status row = "failed").

(** between [s] and [s'] the success counter stood still and the failure
    counter did not go down *)
Definition failures_only (s s' : agent) : Prop :=
  successful_searches s' = successful_searches s /\
  failed_searches s <= failed_searches s'.

(** the configuration is the same in [s] and [s'] *)
Definition same_cfg (s s' : agent) : Prop := cfg s' = cfg s.

(** the agent holds a driver in [s'] when it held one in [s] *)
Definition holds_driver (s s' : agent) : Prop :=
  driver s <> None -> driver s' <> None.

Definition is_print (ev : event) : bool :=
  match ev with
  | EvPrint _ => true
  | _ => false
  end.

(** What a teardown leaves in the trace: [cleanup] is entered, the driver
    is told to quit, and one line is logged after it, unless Ctrl-C cut
    the call short. *)
Definition teardown_events (fault : option exn) : list event :=
  [EvCleanup; EvDriver Quit] ++
  match fault with
  | None => [EvLog INFO "[OK] Browser cleanup completed"]
  | Some e =>
      if is_Exception e
      then [EvLog WARNING ("[WARNING] Cleanup warning: " ++ str_exn e)]
      else []
  end.


(** * Properties *)

(** ** Reasoning about methods *)

Lemma bind_inv {A B} (m : M A) (k : A -> M B) s r s' :
  bind m k s = (r, s') ->
  (exists a s1, m s = (Ok a, s1) /\ k a s1 = (r, s'))
  \/ (exists e, m s = (Raise e, s') /\ r = Raise e).
Proof.
  unfold bind. destruct (m s) as [[a | e] s1]; intros H.
  - left. exists a, s1. split; [reflexivity | exact H].
  - right. inversion H; subst. exists e. split; reflexivity.
Qed.

Lemma bind_Ok {A B} (m : M A) (k : A -> M B) s a s1 :
  m s = (Ok a, s1) -> bind m k s = k a s1.
Proof. unfold bind. intros ->. reflexivity. Qed.

Lemma bind_Raise {A B} (m : M A) (k : A -> M B) s e s1 :
  m s = (Raise e, s1) -> bind m k s = (Raise e, s1).
Proof. unfold bind. intros ->. reflexivity. Qed.

(** Unfolds the plumbing of the monad and nothing else. *)
Tactic Notation "run_monad" :=
  cbv beta iota delta
    [bind ret raise gets modify emit log print may_raise sleep driver_call
     try_except try_except_Exception try_finally is_Exception].

Tactic Notation "run_monad" "in" hyp(H) :=
  cbv beta iota delta
    [bind ret raise gets modify emit log print may_raise sleep driver_call
     try_except try_except_Exception try_finally is_Exception] in H.

Section Stable.
Context (R : agent -> agent -> Prop) (HR : Steady R).

Lemma stable_ret {A} (a : A) : stable R (ret a).
Proof. intros s r s' H. inversion H; subst. apply R_refl. Qed.

Lemma stable_raise {A} (e : exn) : stable R (@raise A e).
Proof. intros s r s' H. inversion H; subst. apply R_refl. Qed.

Lemma stable_gets {A} (f : agent -> A) : stable R (gets f).
Proof. intros s r s' H. inversion H; subst. apply R_refl. Qed.

Lemma stable_modify (g : agent -> agent) :
  (forall s, R s (g s)) -> stable R (modify g).
Proof. intros Hg s r s' H. inversion H; subst. apply Hg. Qed.

Lemma stable_bind {A B} (m : M A) (k : A -> M B) :
  stable R m -> (forall a, stable R (k a)) -> stable R (bind m k).
Proof.
  intros Hm Hk s r s' H.
  destruct (bind_inv _ _ _ _ _ H) as [(a & s1 & H1 & H2) | (e & H1 & _)].
  - eapply R_trans; [eapply Hm, H1 | eapply Hk, H2].
  - eapply Hm, H1.
Qed.

Lemma stable_try_except {A} (m : M A) (h : exn -> option (M A)) :
  stable R m -> (forall e k, h e = Some k -> stable R k) ->
  stable R (try_except m h).
Proof.
  intros Hm Hh s r s'. unfold try_except.
  destruct (m s) as [[a | e] s1] eqn:E.
  - intros H; inversion H; subst. eapply Hm, E.
  - destruct (h e) as [k |] eqn:Eh.
    + intros H. eapply R_trans; [eapply Hm, E | eapply (Hh _ _ Eh), H].
    + intros H; inversion H; subst. eapply Hm, E.
Qed.

Lemma stable_try_except_Exception {A} (m : M A) (h : exn -> M A) :
  stable R m -> (forall e, stable R (h e)) ->
  stable R (try_except_Exception m h).
Proof.
  intros Hm Hh. apply stable_try_except; [exact Hm |].
  intros e k. destruct (is_Exception e); intros H; inversion H; subst.
  apply Hh.
Qed.

Lemma stable_try_finally {A} (m : M A) (f : M unit) :
  stable R m -> stable R f -> stable R (try_finally m f).
Proof.
  intros Hm Hf s r s'. unfold try_finally.
  destruct (m s) as [[a | e] s1] eqn:E; intros H;
    (eapply R_trans; [eapply Hm, E |]);
    destruct (bind_inv _ _ _ _ _ H) as [(u & s2 & H1 & H2) | (e' & H1 & _)];
    try (inversion H2; subst); eapply Hf; eassumption.
Qed.

End Stable.

(** [frame L] applies the stability lemma [L] at the relation of the goal. *)
Tactic Notation "frame" uconstr(L) :=
  match goal with
  | |- stable ?R _ =>
      first [ let S := constr:(_ : Steady R) in apply (L R S)
            | let H := constr:(_ : Framing R) in
              first [ apply (L R H)
                    | let C := constr:(_ : CsvBlind R) in
                      first [ apply (L R H C)
                            | let N := constr:(_ : CounterBlind R) in
                              apply (L R H C N) ]
                    | let N := constr:(_ : CounterBlind R) in
                      first [ apply (L R H N) | apply (L R N) ] ]
            | apply (L R)
            | apply L ]
  end.

Section Leaves.
Context (R : agent -> agent -> Prop) (HR : Framing R).

(** the steps that only add to the trace *)
Lemma stable_emit (ev : event) : plain ev = true -> stable R (emit ev).
Proof. intros Hev. apply stable_modify. intros s. apply R_event, Hev. Qed.

Lemma stable_log lvl msg : stable R (log lvl msg).
Proof. apply stable_emit. reflexivity. Qed.

Lemma stable_print msg : stable R (print msg).
Proof. apply stable_emit. reflexivity. Qed.

Lemma stable_may_raise f : stable R (may_raise f).
Proof. destruct f; [frame stable_raise | frame stable_ret]. Qed.

Lemma stable_sleep q b : stable R (sleep q b).
Proof.
  frame stable_bind; [apply stable_emit; reflexivity |].
  intros _. destruct b; [frame stable_raise | frame stable_ret].
Qed.

Lemma stable_driver_call op f : stable R (driver_call op f).
Proof.
  frame stable_bind;
    [apply stable_emit; reflexivity | intros _; apply stable_may_raise].
Qed.
End Leaves.

Ltac stable_leaf :=
  first
    [ match goal with
      | |- stable _ (ret _) => frame stable_ret
      | |- stable _ (raise _) => frame stable_raise
      | |- stable _ (gets _) => frame stable_gets
      | |- stable ?R (emit (EvSummary _ _ _ _ _)) =>
          let s := fresh "s" in
          apply (stable_modify R); intro s; exact (@R_summary R _ s _ _ _ _ _)
      | |- stable ?R (emit EvCleanup) =>
          let s := fresh "s" in
          apply (stable_modify R); intro s; exact (@R_cleanup R _ s)
      | |- stable _ (emit _) => frame stable_emit; reflexivity
      | |- stable _ (log _ _) => frame stable_log
      | |- stable _ (print _) => frame stable_print
      | |- stable _ (may_raise _) => frame stable_may_raise
      | |- stable _ (sleep _ _) => frame stable_sleep
      | |- stable _ (driver_call _ _) => frame stable_driver_call
      end
    | match goal with
      | |- stable ?R (modify ?g) =>
          let H := constr:(_ : Framing R) in
          let s := fresh "s" in
          apply (stable_modify R g); intro s;
          first [ exact (@R_remember R H s _) | exact (@R_counters R _ s _ _)
                | exact (@R_driver R H s _) | exact (@R_cfg R H s _)
                | exact (@R_start R H s _) | exact (@R_reset R H s)
                | exact (@R_csv R _ s _) ]
      end ].

(** Walks down a method: what is left are the calls of other methods. *)
Ltac stable_steps :=
  repeat first
    [ progress intros
    | match goal with
      | |- stable _ (bind _ _) => frame stable_bind
      | |- stable _ (try_except_Exception _ _) =>
          frame stable_try_except_Exception
      | |- stable _ (try_finally _ _) => frame stable_try_finally
      | |- stable _ (let _ := _ in _) => progress cbv zeta
      end
    | solve [stable_leaf]
    | match goal with
      | |- stable _ (match ?x with _ => _ end) => destruct x
      | |- stable _ (if ?b then _ else _) => destruct b
      end ].

(** ** The query generator *)

Lemma last_n_length {A} n (l : list A) :
  List.length (PyStr.last_n n l) = Nat.min n (List.length l).
Proof. unfold PyStr.last_n. rewrite length_skipn. lia. Qed.

Lemma last_n_all {A} n (l : list A) :
  List.length l <= n -> PyStr.last_n n l = l.
Proof.
  intros H. unfold PyStr.last_n.
  assert (E : List.length l - n = 0) by lia.
  rewrite E. reflexivity.
Qed.

Lemma remember_last_20 q h :
  remember q h = PyStr.last_n 20 (h ++ [q])%list.
Proof.
  unfold remember.
  destruct (Nat.ltb_spec 20 (List.length (h ++ [q])%list)); [reflexivity |].
  symmetry. apply last_n_all. assumption.
Qed.

Lemma remember_length q h :
  List.length (remember q h) = Nat.min 20 (S (List.length h)).
Proof.
  rewrite remember_last_20, last_n_length, length_app.
  cbn [List.length]. lia.
Qed.

(** What one pass of the retry loop can do. *)
Lemma generation_attempt_cases a i s r s' :
  generation_attempt a i s = (r, s') ->
  (exists text,
      reply a = Reply text /\ _validate_query (clean_reply text) = true /\
      r = Ok (Some (clean_reply text,
                    PyStr.choice (pick_category a) categories,
                    PyStr.choice (pick_query_type a) query_types)) /\
      search_history s' = remember (clean_reply text) (search_history s))
  \/ ((r = Ok None \/ r = Raise KeyboardInterrupt) /\
      search_history s' = search_history s).
Proof.
  unfold generation_attempt, generate_content.
  destruct (reply a) as [text | e] eqn:Er.
  - destruct (_validate_query (clean_reply text)) eqn:Ev; run_monad; rewrite ?Ev;
      intros H; inversion H; subst; clear H.
    + left. exists text. repeat split; assumption || reflexivity.
    + right. split; [left |]; reflexivity.
  - destruct e, (i <? max_retries - 1), (backoff_interrupted a); run_monad;
      intros H; inversion H; subst; clear H; right;
      (split; [(left; reflexivity) || (right; reflexivity) | reflexivity]).
Qed.

Lemma generation_loop_cases g n : forall i s r s',
  generation_loop g i n s = (r, s') ->
  (exists q c t,
      r = Ok (Some (q, c, t)) /\ _validate_query q = true /\
      search_history s' = remember q (search_history s))
  \/ ((r = Ok None \/ r = Raise KeyboardInterrupt) /\
      search_history s' = search_history s).
Proof.
  induction n as [| n IH]; intros i s r s' H; simpl in H.
  - inversion H; subst. right. split; [left |]; reflexivity.
  - destruct (bind_inv _ _ _ _ _ H) as [(o & s1 & H1 & H2) | (e & H1 & ->)];
      apply generation_attempt_cases in H1;
      destruct H1 as [(text & _ & Hv & Hr & Hh) | ([Hr | Hr] & Hh)];
      try discriminate.
    + inversion Hr; subst. inversion H2; subst.
      left. do 3 eexists. repeat split; eassumption.
    + inversion Hr; subst. apply IH in H2. rewrite Hh in H2. exact H2.
    + inversion Hr; subst. right. split; [right; reflexivity | exact Hh].
Qed.

Lemma validate_query_spec q :
  _validate_query q = true ->
  3 <= String.length q <= 100 /\
  forall term, In term forbidden_terms ->
               PyStr.contains term (PyStr.lower q) = false.
Proof.
  unfold _validate_query.
  destruct (Nat.ltb_spec (String.length q) 3); [discriminate |].
  destruct (Nat.ltb_spec 100 (String.length q)); [discriminate |].
  destruct (existsb _ forbidden_terms) eqn:E; [discriminate |].
  intros _. split; [lia |].
  intros term Hin.
  destruct (PyStr.contains term (PyStr.lower q)) eqn:Ec; [| reflexivity].
  assert (X : existsb (fun t => PyStr.contains t (PyStr.lower q)) forbidden_terms = true)
    by (apply existsb_exists; exists term; split; assumption).
  congruence.
Qed.

Lemma choice_in r l : l <> [] -> In (PyStr.choice r l) l.
Proof.
  intros Hl. unfold PyStr.choice. apply nth_In.
  apply Nat.mod_upper_bound. destruct l; [contradiction | discriminate].
Qed.

(** every fallback text would itself pass the validation *)
Lemma fallback_text_valid r :
  _validate_query ("what is " ++ PyStr.choice r categories) = true.
Proof.
  assert (H : forallb (fun c => _validate_query ("what is " ++ c)) categories = true)
    by (vm_compute; reflexivity).
  rewrite forallb_forall in H. apply H. apply choice_in. discriminate.
Qed.

Lemma generate_search_query_cases g s r s' :
  generate_search_query g s = (r, s') ->
  (exists q c t,
      r = Ok (q, c, t) /\ _validate_query q = true /\
      generation_loop g 0 max_retries s = (Ok (Some (q, c, t)), s') /\
      search_history s' = remember q (search_history s))
  \/ (r = Ok ("what is " ++ PyStr.choice (pick_fallback g) categories,
              "general", "fallback") /\
      search_history s' = search_history s)
  \/ (r = Raise KeyboardInterrupt /\ search_history s' = search_history s).
Proof.
  unfold generate_search_query. intros H.
  destruct (bind_inv _ _ _ _ _ H) as [(o & s1 & H1 & H2) | (e & H1 & ->)].
  - destruct (generation_loop_cases _ _ _ _ _ _ H1)
      as [(q & c & t & Hr & Hv & Hh) | ([Hr | Hr] & Hh)]; try discriminate.
    + inversion Hr; subst. inversion H2; subst.
      left. exists q, c, t. repeat split; assumption.
    + inversion Hr; subst. unfold fallback_query in H2. run_monad in H2.
      inversion H2; subst. right. left. split; [reflexivity | exact Hh].
  - destruct (generation_loop_cases _ _ _ _ _ _ H1)
      as [(q & c & t & Hr & _) | ([Hr | Hr] & Hh)]; try discriminate.
    inversion Hr; subst. right. right. split; [reflexivity | exact Hh].
Qed.

(** C4. Whatever [generate_search_query] returns, the query text has
    between 3 and 100 characters and its lower-cased form contains none of
    the forbidden terms; this covers the validated answer of the service and
    the fallback built from a category label. *)
Theorem generated_query_is_valid g s q c t s' :
  generate_search_query g s = (Ok (q, c, t), s') ->
  3 <= String.length q <= 100 /\
  forall term, In term forbidden_terms ->
               PyStr.contains term (PyStr.lower q) = false.
Proof.
  intros H. apply validate_query_spec.
  destruct (generate_search_query_cases _ _ _ _ H)
    as [(q' & c' & t' & Hr & Hv & _) | [(Hr & _) | (Hr & _)]];
    inversion Hr; subst.
  - exact Hv.
  - apply fallback_text_valid.
Qed.

Lemma generated_query_is_valid_witness :
  3 <= String.length "why do tides change" <= 100 /\
  forall term, In term forbidden_terms ->
               PyStr.contains term (PyStr.lower "why do tides change") = false.
Proof.
  refine (generated_query_is_valid (Sample.service_up "  'why do tides change' ")
            Sample.ready "why do tides change" "technology" "what is" _ _).
  vm_compute. reflexivity.
Defined.

Lemma service_calls_app t1 t2 :
  service_calls (t1 ++ t2)%list = service_calls t1 + service_calls t2.
Proof. unfold service_calls. rewrite filter_app, length_app. reflexivity. Qed.

Lemma service_calls_snoc t ev :
  service_calls (t ++ [ev])%list
  = service_calls t + (if is_service_call ev then 1 else 0).
Proof.
  rewrite service_calls_app. unfold service_calls at 2. simpl.
  destruct (is_service_call ev); reflexivity.
Qed.

Ltac count_calls :=
  cbn [trace set_trace snd]; rewrite ?service_calls_snoc;
  cbn [is_service_call]; lia.

(** a failing pass calls the service once and leaves the loop going *)
Lemma failed_attempt a i s :
  attempt_fails i a ->
  exists s1,
    generation_attempt a i s = (Ok None, s1) /\
    service_calls (trace s1) = S (service_calls (trace s)) /\
    search_history s1 = search_history s.
Proof.
  unfold attempt_fails, generation_attempt, generate_content.
  destruct (reply a) as [text | e].
  - intros Hv. run_monad. rewrite Hv. eexists. split; [reflexivity |].
    split; [| reflexivity]. count_calls.
  - intros [He Hb]. destruct e; try discriminate;
      (destruct (Nat.ltb_spec i (max_retries - 1));
       [rewrite (Hb ltac:(assumption)) |]);
      run_monad; eexists; (split; [reflexivity |]);
      (split; [| reflexivity]); count_calls.
Qed.

(** C5. When the three passes of the retry loop all fail, by a service
    error or by a rejected answer, [generate_search_query] returns (it does
    not raise) the fallback text with category "general" and query type
    "fallback"; the service was called once per pass, and the statements
    after the loop add one warning to the trace and no service call. *)
Theorem fallback_after_three_failures g s :
  (forall i, i < max_retries -> attempt_fails i (attempt_env_of g i)) ->
  exists s3,
    generation_loop g 0 max_retries s = (Ok None, s3) /\
    service_calls (trace s3) = service_calls (trace s) + 3 /\
    generate_search_query g s =
      (Ok ("what is " ++ PyStr.choice (pick_fallback g) categories,
           "general", "fallback"),
       set_trace
         (trace s3 ++
            [EvLog WARNING
               ("[WARNING] Using fallback query: " ++ "what is "
                  ++ PyStr.choice (pick_fallback g) categories)])%list s3) /\
    service_calls (trace (snd (generate_search_query g s)))
      = service_calls (trace s3).
Proof.
  intros Hf.
  destruct (failed_attempt _ 0 s (Hf 0 ltac:(unfold max_retries; lia)))
    as (s1 & E1 & C1 & _).
  destruct (failed_attempt _ 1 s1 (Hf 1 ltac:(unfold max_retries; lia)))
    as (s2 & E2 & C2 & _).
  destruct (failed_attempt _ 2 s2 (Hf 2 ltac:(unfold max_retries; lia)))
    as (s3 & E3 & C3 & _).
  assert (L : generation_loop g 0 max_retries s = (Ok None, s3)).
  { unfold max_retries. simpl.
    rewrite (bind_Ok _ _ _ _ _ E1), (bind_Ok _ _ _ _ _ E2),
      (bind_Ok _ _ _ _ _ E3). reflexivity. }
  assert (G : generate_search_query g s = fallback_query g s3).
  { unfold generate_search_query. rewrite (bind_Ok _ _ _ _ _ L). reflexivity. }
  exists s3. split; [exact L |]. split; [lia |].
  rewrite G. unfold fallback_query. run_monad. split; [reflexivity |].
  count_calls.
Qed.

Lemma fallback_after_three_failures_witness :
  exists s3,
    generation_loop Sample.service_down 0 max_retries Sample.ready = (Ok None, s3) /\
    service_calls (trace s3) = service_calls (trace Sample.ready) + 3 /\
    generate_search_query Sample.service_down Sample.ready =
      (Ok ("what is science", "general", "fallback"),
       set_trace
         (trace s3 ++
            [EvLog WARNING "[WARNING] Using fallback query: what is science"])%list
         s3) /\
    service_calls (trace (snd (generate_search_query Sample.service_down Sample.ready)))
      = service_calls (trace s3).
Proof.
  apply (fallback_after_three_failures Sample.service_down Sample.ready).
  intros i Hi. unfold max_retries in Hi.
  destruct i as [| [| [| i]]]; try lia; vm_compute;
    first [reflexivity | split; [reflexivity | intros; reflexivity]].
Defined.

(** ** Every method keeps a framing relation *)

Section Methods.
Context (R : agent -> agent -> Prop) (HR : Framing R).

Lemma stable_generation_attempt a i : stable R (generation_attempt a i).
Proof.
  unfold generation_attempt, generate_content. stable_steps.
Qed.

Lemma stable_generation_loop g n : forall i, stable R (generation_loop g i n).
Proof.
  induction n as [| n IH]; intros i; simpl.
  - frame stable_ret.
  - frame stable_bind; [frame stable_generation_attempt |].
    intros [t |]; [frame stable_ret | apply IH].
Qed.

Lemma stable_generate_search_query g : stable R (generate_search_query g).
Proof.
  unfold generate_search_query, fallback_query.
  frame stable_bind; [frame stable_generation_loop |].
  intros [t |]; stable_steps.
Qed.

Lemma stable_human_like_typing k text :
  forall i, stable R (_human_like_typing k i text).
Proof.
  induction text as [| c rest IH]; intros i; simpl; stable_steps. apply IH.
Qed.

Lemma stable_simulate_human_behavior b : stable R (_simulate_human_behavior b).
Proof. unfold _simulate_human_behavior, behavior_steps. stable_steps. Qed.

Lemma stable_execute_search x q : stable R (execute_search x q).
Proof.
  unfold execute_search, search_body. frame stable_try_except.
  - stable_steps; first [ frame stable_human_like_typing
                        | frame stable_simulate_human_behavior ].
  - intros e k. destruct e; intros H; inversion H; subst; stable_steps.
Qed.

Lemma stable_countdown j n : stable R (countdown n j).
Proof. induction n as [| n IH]; simpl; stable_steps. apply IH. Qed.

Lemma stable_random_delay d : stable R (_random_delay d).
Proof. unfold _random_delay. stable_steps; frame stable_countdown. Qed.

Lemma stable_initialize_browser b : stable R (_initialize_browser b).
Proof.
  unfold _initialize_browser. stable_steps.
Qed.

Lemma stable_recover r : stable R (_recover_from_browser_crash r).
Proof.
  unfold _recover_from_browser_crash. stable_steps;
    frame stable_initialize_browser.
Qed.

Lemma stable_truediv a b : stable R (truediv a b).
Proof. unfold truediv. stable_steps. Qed.

Lemma stable_print_final_summary now a b n :
  SummaryBlind R -> stable R (_print_final_summary now a b n).
Proof.
  intros HS. unfold _print_final_summary. stable_steps; frame stable_truediv.
Qed.

Lemma stable_cleanup f : CleanupBlind R -> stable R (cleanup f).
Proof. intros HK. unfold cleanup. stable_steps. Qed.

Lemma stable_log_search_result l q c t ok url time :
  CsvBlind R -> stable R (_log_search_result l q c t ok url time).
Proof. intros HC. unfold _log_search_result. stable_steps. Qed.

Lemma stable_count_success : CounterBlind R -> stable R count_success.
Proof. intros HN. unfold count_success. stable_leaf. Qed.

Lemma stable_count_failure : CounterBlind R -> stable R count_failure.
Proof. intros HN. unfold count_failure. stable_leaf. Qed.

Context (HC : CsvBlind R) (HN : CounterBlind R).
Context (HS : SummaryBlind R) (HK : CleanupBlind R).

Lemma stable_cycle_body e cycles cycle : stable R (cycle_body e cycles cycle).
Proof.
  unfold cycle_body. stable_steps;
    first [ apply stable_generate_search_query | apply stable_execute_search
          | apply stable_log_search_result, HC | apply stable_count_success, HN
          | apply stable_count_failure, HN | apply stable_random_delay ].
Qed.

Lemma stable_cycle_step e cycles cycle : stable R (cycle_step e cycles cycle).
Proof.
  unfold cycle_step. frame stable_try_except.
  - stable_steps. frame stable_cycle_body.
  - intros x k. destruct x; intros H; inversion H; subst; stable_steps;
      first [ apply stable_count_failure, HN | apply stable_recover ].
Qed.

Lemma stable_run_loop env cycles n :
  forall cycle, stable R (run_loop env cycles cycle n).
Proof.
  induction n as [| n IH]; intros cycle; simpl.
  - frame stable_ret.
  - frame stable_bind; [frame stable_cycle_step |].
    intros [|]; [apply IH | frame stable_ret].
Qed.

Lemma stable_run r cycles : stable R (run r cycles).
Proof.
  unfold run, finish_run. stable_steps;
    first [ frame stable_run_loop | apply stable_print_final_summary, HS
          | solve [stable_leaf] ].
Qed.

Lemma stable_init u : stable R (__init__ u).
Proof.
  unfold __init__, load_config, _initialize_gemini, _setup_csv_logging.
  stable_steps;
    first [ frame stable_initialize_browser
          | solve [stable_leaf] ].
Qed.

Lemma stable_main m : stable R (main m).
Proof.
  unfold main. frame stable_try_finally; [| frame stable_print].
  intros s r s'. destruct (__init__ (startup m) s) as [[u | e] s1] eqn:E;
    intros H; (eapply R_trans; [exact (stable_init _ _ _ _ E) |]);
    (eapply (stable_try_except R _); [ | | exact H]).
  - frame stable_try_finally; [frame stable_run | apply stable_cleanup, HK].
  - intros x k. unfold main_handlers.
    destruct x; intros Hk; inversion Hk; subst; stable_steps.
  - frame stable_raise.
  - intros x k. unfold main_handlers.
    destruct x; intros Hk; inversion Hk; subst; stable_steps.
Qed.
End Methods.

(** ** The search history *)

#[export] Instance framing_history_bound : Framing keeps_history_bound.
Proof.
  unfold keeps_history_bound, history_bounded.
  split; [split | ..]; intros; cbn in *; rewrite ?remember_length; auto; lia.
Qed.

#[export] Instance csv_blind_history_bound : CsvBlind keeps_history_bound.
Proof. intros s f H. exact H. Qed.

#[export] Instance counter_blind_history_bound : CounterBlind keeps_history_bound.
Proof. intros s a b H. exact H. Qed.

#[export] Instance summary_blind_history_bound : SummaryBlind keeps_history_bound.
Proof. intros s a b c d e H. exact H. Qed.

Lemma generate_keeps_history_bound g s :
  history_bounded s -> history_bounded (snd (generate_search_query g s)).
Proof.
  intros H.
  destruct (generate_search_query g s) as [r s'] eqn:E.
  exact (stable_generate_search_query keeps_history_bound _ g s r s' E H).
Qed.

(** C6. The search history never holds more than 20 queries: the bound is
    kept by every call of [generate_search_query] and so by any sequence of
    calls from the empty history of a new agent, and by a whole [run]; a
    generation that succeeded (its query type is not "fallback") appends
    its query and keeps the last 20 entries, which are all of them up to 20
    and exactly the 20 most recent beyond. *)
Theorem history_never_exceeds_20 :
  (forall gs s, history_bounded s -> history_bounded (generate_calls gs s)) /\
  (forall gs s, search_history s = [] ->
                List.length (search_history (generate_calls gs s)) <= 20) /\
  (forall g s q c t s',
      generate_search_query g s = (Ok (q, c, t), s') -> t <> "fallback" ->
      search_history s' = PyStr.last_n 20 (search_history s ++ [q])%list /\
      List.length (search_history s')
        = Nat.min 20 (S (List.length (search_history s)))) /\
  (forall r cycles s, history_bounded s -> history_bounded (snd (run r cycles s))).
Proof.
  assert (A : forall gs s, history_bounded s -> history_bounded (generate_calls gs s)).
  { induction gs as [| g gs IH]; intros s H; simpl; [exact H |].
    apply IH, generate_keeps_history_bound, H. }
  split; [exact A |]. split; [| split].
  - intros gs s H. apply A. unfold history_bounded. rewrite H. simpl. lia.
  - intros g s q c t s' E Ht.
    destruct (generate_search_query_cases _ _ _ _ E)
      as [(q' & c' & t' & Hr & _ & _ & Hh) | [(Hr & _) | (Hr & _)]];
      inversion Hr; subst; [| congruence].
    rewrite Hh. split; [apply remember_last_20 | apply remember_length].
  - intros r cycles s H.
    destruct (run r cycles s) as [res s'] eqn:E.
    exact (stable_run keeps_history_bound _ _ _ _ r cycles s res s' E H).
Qed.

Lemma history_never_exceeds_20_witness :
  history_bounded (generate_calls [Sample.service_up "why do tides change"] Sample.ready)
  /\ search_history
       (snd (generate_search_query (Sample.service_up "why do tides change")
                                   Sample.ready))
     = PyStr.last_n 20 (search_history Sample.ready ++ ["why do tides change"])%list.
Proof.
  destruct history_never_exceeds_20 as (A & _ & C & _). split.
  - apply A. unfold history_bounded. simpl. lia.
  - refine (proj1 (C (Sample.service_up "why do tides change") Sample.ready
                     "why do tides change" "technology" "what is" _ _ _)).
    + vm_compute. reflexivity.
    + discriminate.
Defined.

(** ** Executing a search *)

(** when the [try] block of [execute_search] completes, this is its value *)
Lemma search_body_value x q st s v s1 :
  search_body x q st s = (Ok v, s1) ->
  v = (true, current_url x, (end_clock x - st)%Q).
Proof.
  unfold search_body. intros H.
  repeat (apply bind_inv in H;
          destruct H as [(? & ? & _ & H) | (? & _ & ?)]; [| discriminate]).
  inversion H. reflexivity.
Qed.

Lemma execute_search_cases x q s :
  match search_body x q (start_clock x) s with
  | (Ok v, s1) => execute_search x q s = (Ok v, s1)
  | (Raise KeyboardInterrupt, s1) =>
      execute_search x q s = (Raise KeyboardInterrupt, s1)
  | (Raise (TimeoutException _), s1) =>
      fst (execute_search x q s)
      = Ok (false, "timeout", (end_clock x - start_clock x)%Q)
  | (Raise (OtherException t), s1) =>
      fst (execute_search x q s)
      = Ok (false, "error: " ++ t, (end_clock x - start_clock x)%Q)
  end.
Proof.
  unfold execute_search, try_except.
  destruct (search_body x q (start_clock x) s) as [[v | [| t | t]] s1];
    reflexivity.
Qed.

(** what [execute_search] can return *)
Lemma execute_search_values x q s ok loc t s' :
  execute_search x q s = (Ok (ok, loc, t), s') ->
  t = (end_clock x - start_clock x)%Q /\
  (ok = true \/
   ok = false /\ (loc = "timeout" \/ exists msg, loc = "error: " ++ msg)).
Proof.
  intros H. pose proof (execute_search_cases x q s) as C.
  destruct (search_body x q (start_clock x) s) as [[v | [| m | m]] s1] eqn:E;
    rewrite H in C; simpl in C; inversion C; subst.
  - apply search_body_value in E. inversion E; subst. split; [reflexivity |].
    left. reflexivity.
  - split; [reflexivity |]. right. split; [reflexivity |]. left. reflexivity.
  - split; [reflexivity |]. right. split; [reflexivity |]. right.
    exists m. reflexivity.
Qed.

(** C7, as amended. [execute_search] propagates no [Exception]: a
    [TimeoutException] raised in its [try] block (a page wait that timed
    out is one) gives the outcome (false, "timeout", elapsed) and any other
    [Exception] gives (false, "error: " ++ str(e), elapsed); only
    [KeyboardInterrupt] passes.  The elapsed time is the difference of two
    readings of the wall clock, so it is non-negative provided the second
    reading is not earlier than the first. *)
Theorem execute_search_outcome x q s :
  (forall m s1,
      search_body x q (start_clock x) s = (Raise (TimeoutException m), s1) ->
      fst (execute_search x q s)
      = Ok (false, "timeout", (end_clock x - start_clock x)%Q)) /\
  (forall m,
      get_fault x = None -> wait_box_fault x = Some (TimeoutException m) ->
      fst (execute_search x q s)
      = Ok (false, "timeout", (end_clock x - start_clock x)%Q)) /\
  (forall m s1,
      search_body x q (start_clock x) s = (Raise (OtherException m), s1) ->
      fst (execute_search x q s)
      = Ok (false, "error: " ++ m, (end_clock x - start_clock x)%Q)) /\
  (forall e, fst (execute_search x q s) = Raise e -> e = KeyboardInterrupt) /\
  ((start_clock x <= end_clock x)%Q ->
   forall ok loc t,
     fst (execute_search x q s) = Ok (ok, loc, t) -> (0 <= t)%Q).
Proof.
  pose proof (execute_search_cases x q s) as C.
  repeat split.
  - intros m s1 E. rewrite E in C. exact C.
  - intros m Hg Hw. unfold execute_search, search_body. run_monad.
    rewrite Hg, Hw. reflexivity.
  - intros m s1 E. rewrite E in C. exact C.
  - intros e He.
    destruct (search_body x q (start_clock x) s) as [[v | [| m | m]] s1];
      rewrite C in He; simpl in He; congruence.
  - intros Hc ok loc t Ht.
    destruct (execute_search x q s) as [r s'] eqn:E. simpl in Ht. subst r.
    destruct (execute_search_values _ _ _ _ _ _ _ E) as [-> _].
    apply Qle_minus_iff in Hc. exact Hc.
Qed.

Lemma execute_search_outcome_witness :
  fst (execute_search Sample.page_hangs "tides" Sample.ready)
  = Ok (false, "timeout", (115 - 100)%Q)
  /\ (0 <= 107 - 100)%Q.
Proof.
  destruct (execute_search_outcome Sample.page_hangs "tides" Sample.ready)
    as (_ & T & _).
  destruct (execute_search_outcome Sample.page_ok "tides" Sample.ready)
    as (_ & _ & _ & _ & P).
  split.
  - exact (T "Message: " eq_refl eq_refl).
  - refine (P _ true "https://www.bing.com/search?q=tides" _ _).
    + vm_compute. discriminate.
    + vm_compute. reflexivity.
Defined.

(** C7, as stated, fails: with the system clock set back during a search
    that succeeds, the execution time returned is negative. *)
Lemma execution_time_negative_when_clock_set_back :
  fst (execute_search Sample.clock_set_back "tides" Sample.ready)
  = Ok (true, "https://www.bing.com/search?q=tides", (97 - 100)%Q)
  /\ (97 - 100 < 0)%Q.
Proof. split; vm_compute; reflexivity. Qed.

(** ** The run log *)

Lemma log_search_result_row l q c qt ok loc t s r s' :
  _log_search_result l q c qt ok loc t s = (r, s') ->
  match write_fault l with
  | Some e => r = Raise e /\ csv_file s' = csv_file s
  | None =>
      r = Ok tt /\
      csv_file s' =
        (csv_file s ++
           [[timestamp l; q; loc; if ok then "success" else "failed";
             PyStr.fmt_2f t; c; qt]])%list
  end.
Proof.
  unfold _log_search_result. destruct (write_fault l); run_monad;
    intros H; inversion H; subst; split; reflexivity.
Qed.

(** C1, as amended. The row written for a search outcome has "success" in
    the response_status column when the search succeeded and "failed"
    otherwise; what tells a timeout from another error, "timeout" or
    "error: <detail>", is written in the search_url column. *)
Theorem logged_status_is_success_or_failed x l q c qt s ok loc t s1 s2 :
  execute_search x q s = (Ok (ok, loc, t), s1) ->
  _log_search_result l q c qt ok loc t s1 = (Ok tt, s2) ->
  exists row,
    csv_file s2 = (csv_file s1 ++ [row])%list /\
    response_status row = (if ok then "success" else "failed") /\
    search_url row = loc /\
    (ok = false -> loc = "timeout" \/ exists msg, loc = "error: " ++ msg).
Proof.
  intros E L. apply log_search_result_row in L.
  destruct (write_fault l); destruct L as [L1 L2]; [discriminate |].
  eexists. split; [exact L2 |]. split; [reflexivity |]. split; [reflexivity |].
  intros ->. apply execute_search_values in E.
  destruct E as (_ & [F | (_ & F)]); [discriminate | exact F].
Qed.

Lemma logged_status_is_success_or_failed_witness :
  exists row,
    csv_file (snd (_log_search_result (Sample.stamp "2025-01-01T10:00:00")
                     "tides" "science" "what is" false "timeout" (115 - 100)%Q
                     (snd (execute_search Sample.page_hangs "tides" Sample.ready))))
    = (csv_file (snd (execute_search Sample.page_hangs "tides" Sample.ready))
         ++ [row])%list /\
    response_status row = "failed" /\
    search_url row = "timeout" /\
    (false = false -> "timeout" = "timeout" \/ exists msg, "timeout" = "error: " ++ msg).
Proof.
  refine (logged_status_is_success_or_failed Sample.page_hangs
            (Sample.stamp "2025-01-01T10:00:00") "tides" "science" "what is"
            Sample.ready false "timeout" (115 - 100)%Q _ _ _ _).
  - vm_compute. reflexivity.
  - vm_compute. reflexivity.
Defined.

(** C1, as stated, fails: a search that timed out is logged with the
    status "failed", not "timeout"; "timeout" is in the search_url column. *)
Lemma timeout_is_logged_as_failed :
  exists row,
    data_rows (snd (cycle_body (Sample.cycle_hangs "2025-01-01T10:00:00") 1 1
                               Sample.ready)) = [row] /\
    search_url row = "timeout" /\
    response_status row = "failed" /\
    response_status row <> "timeout".
Proof.
  eexists. split; [vm_compute; reflexivity |].
  split; [reflexivity |]. split; [reflexivity |]. discriminate.
Qed.

(** ** Simulated human behaviour *)













(** ** The final summary *)

Lemma rate_bounds (a t : nat) :
  a <= t -> 0 < t ->
  (0 <= inject_Z (Z.of_nat a) / inject_Z (Z.of_nat t) * 100
   /\ inject_Z (Z.of_nat a) / inject_Z (Z.of_nat t) * 100 <= 100)%Q.
Proof.
  intros Hat Ht.
  assert (P : (0 < inject_Z (Z.of_nat t))%Q).
  { unfold Qlt, inject_Z. simpl. lia. }
  assert (A : (0 <= inject_Z (Z.of_nat a))%Q).
  { unfold Qle, inject_Z. simpl. lia. }
  assert (B : (inject_Z (Z.of_nat a) <= inject_Z (Z.of_nat t))%Q).
  { unfold Qle, inject_Z. simpl. lia. }
  split.
  - apply Qmult_le_0_compat; [| discriminate].
    apply Qle_shift_div_l; [exact P |]. rewrite Qmult_0_l. exact A.
  - setoid_replace (100 : Q) with (1 * 100)%Q at 2 by reflexivity.
    apply Qmult_le_compat_r; [| discriminate].
    apply Qle_shift_div_r; [exact P |]. rewrite Qmult_1_l. exact B.
Qed.

(** the summary is printed whatever the counters are *)
Lemma print_final_summary_returns now successful failed planned s :
  exists rate,
    _print_final_summary now successful failed planned s
    = (Ok tt,
       set_trace
         (trace s ++
            [EvSummary successful failed rate (now - session_start_time s)
                       planned])%list s).
Proof.
  unfold _print_final_summary, truediv.
  destruct (Nat.ltb_spec 0 (successful + failed)) as [Hp | Hz].
  - destruct (Z.eqb_spec (Z.of_nat (successful + failed)) 0) as [E | _]; [lia |].
    eexists. run_monad. reflexivity.
  - eexists. run_monad. reflexivity.
Qed.

(** C10. [_print_final_summary] returns for all counter values and never
    raises: with no search executed the rate reported is 0 and nothing is
    divided; otherwise the rate is successful / (successful + failed) * 100,
    a number between 0 and 100. *)
Theorem final_summary_is_total now successful failed planned s :
  exists rate,
    _print_final_summary now successful failed planned s
    = (Ok tt,
       set_trace
         (trace s ++
            [EvSummary successful failed rate (now - session_start_time s)
                       planned])%list s) /\
    (successful + failed = 0 -> rate = 0%Q) /\
    (0 < successful + failed ->
     rate = (inject_Z (Z.of_nat successful)
             / inject_Z (Z.of_nat (successful + failed)) * 100)%Q /\
     (0 <= rate <= 100)%Q).
Proof.
  unfold _print_final_summary, truediv.
  destruct (Nat.ltb_spec 0 (successful + failed)) as [Hp | Hz].
  - destruct (Z.eqb_spec (Z.of_nat (successful + failed)) 0) as [E | _]; [lia |].
    eexists. split; [run_monad; reflexivity |]. split; [lia |].
    intros _. split; [reflexivity |]. apply rate_bounds; lia.
  - eexists. split; [run_monad; reflexivity |]. split; [reflexivity |]. lia.
Qed.

Lemma final_summary_is_total_witness :
  exists rate,
    _print_final_summary 60 3 1 4 Sample.ready
    = (Ok tt,
       set_trace
         (trace Sample.ready ++
            [EvSummary 3 1 rate (60 - session_start_time Sample.ready) 4])%list
         Sample.ready) /\
    (3 + 1 = 0 -> rate = 0%Q) /\
    (0 < 3 + 1 ->
     rate = (inject_Z (Z.of_nat 3) / inject_Z (Z.of_nat (3 + 1)) * 100)%Q /\
     (0 <= rate <= 100)%Q).
Proof. exact (final_summary_is_total 60 3 1 4 Sample.ready). Defined.

(** ** Exceptions in a cycle *)

Lemma finish_run_returns r cycles s :
  exists rate,
    finish_run r cycles s
    = (Ok tt,
       set_trace
         (trace s ++
            [EvSummary (successful_searches s) (failed_searches s) rate
                       (clock_at_summary r - session_start_time s) cycles])%list s).
Proof.
  destruct (print_final_summary_returns (clock_at_summary r) (successful_searches s)
              (failed_searches s) cycles s) as (rate & F).
  exists rate. unfold finish_run. run_monad. exact F.
Qed.

Lemma recovery_attempts_snoc t ev :
  recovery_attempts (t ++ [ev])%list
  = recovery_attempts t + (if is_recovery_start ev then 1 else 0).
Proof.
  unfold recovery_attempts. rewrite filter_app, length_app. simpl.
  destruct (is_recovery_start ev); reflexivity.
Qed.

Lemma recovery_start_logged :
  is_recovery_start (EvLog WARNING "[RECOVER] Attempting browser recovery...")
  = true.
Proof. reflexivity. Qed.

Ltac count_recoveries :=
  cbn [trace set_trace set_driver set_counters fst snd];
  rewrite ?recovery_attempts_snoc, ?recovery_start_logged;
  cbn [is_recovery_start]; lia.

#[export] Instance steady_quiet : Steady quiet.
Proof. unfold quiet. split; intros; congruence. Qed.

Lemma quiet_emit ev : is_recovery_start ev = false -> stable quiet (emit ev).
Proof.
  intros Hev. apply stable_modify. intros s. unfold quiet.
  cbn [trace set_trace]. rewrite recovery_attempts_snoc, Hev. lia.
Qed.

Lemma quiet_may_raise f : stable quiet (may_raise f).
Proof. destruct f; [frame stable_raise | frame stable_ret]. Qed.

Lemma quiet_driver_call op f : stable quiet (driver_call op f).
Proof.
  frame stable_bind; [apply quiet_emit; reflexivity |].
  intros _. apply quiet_may_raise.
Qed.

Lemma quiet_sleep q b : stable quiet (sleep q b).
Proof.
  frame stable_bind; [apply quiet_emit; reflexivity |].
  intros _. destruct b; [frame stable_raise | frame stable_ret].
Qed.

Lemma quiet_initialize_browser b : stable quiet (_initialize_browser b).
Proof.
  unfold _initialize_browser. frame stable_try_except_Exception.
  - frame stable_bind; [apply quiet_may_raise | intros _].
    frame stable_bind; [apply quiet_driver_call | intros _].
    frame stable_bind; [apply stable_modify; intros s; reflexivity | intros _].
    frame stable_bind; [apply quiet_driver_call | intros _].
    apply quiet_emit. reflexivity.
  - intros e. frame stable_bind; [apply quiet_emit; reflexivity | intros _].
    frame stable_raise.
Qed.

(** the recovery routine after its first log line *)
Lemma quiet_recovery_steps r :
  stable quiet
    (d <- gets driver ;;
     match d with
     | Some _ =>
         try_except_Exception (driver_call Quit (quit_fault r)) (fun _ => ret tt)
     | None => ret tt
     end ;;
     sleep 5 (cooldown_interrupted r) ;;
     _initialize_browser (relaunch r) ;;
     ret true).
Proof.
  frame stable_bind; [frame stable_gets | intros d].
  frame stable_bind.
  - destruct d; [| frame stable_ret].
    frame stable_try_except_Exception; [apply quiet_driver_call |].
    intros _. frame stable_ret.
  - intros _. frame stable_bind; [apply quiet_sleep | intros _].
    frame stable_bind; [apply quiet_initialize_browser | intros _].
    frame stable_ret.
Qed.

(** one call of the recovery routine is one recovery attempt, however it ends *)
Lemma recover_is_one_attempt r s res s' :
  _recover_from_browser_crash r s = (res, s') ->
  recovery_attempts (trace s') = S (recovery_attempts (trace s)).
Proof.
  unfold _recover_from_browser_crash, try_except_Exception, try_except.
  unfold bind at 1. unfold log at 1, emit at 1, modify at 1.
  set (s0 := set_trace
               (trace s ++
                  [EvLog WARNING "[RECOVER] Attempting browser recovery..."])%list s).
  assert (C0 : recovery_attempts (trace s0) = S (recovery_attempts (trace s))).
  { unfold s0. count_recoveries. }
  match goal with
  | |- context [match ?m s0 with _ => _ end] =>
      destruct (m s0) as [[a | e] s1] eqn:B;
      pose proof (quiet_recovery_steps r s0 _ _ B) as Q
  end; unfold quiet in Q.
  - intros H. inversion H; subst. lia.
  - destruct (is_Exception e).
    + run_monad. intros H. inversion H; subst. count_recoveries.
    + intros H. inversion H; subst. lia.
Qed.

Lemma cycle_step_on_exception e cycles cycle s x s1 :
  cycle_body e cycles cycle s = (Raise x, s1) -> is_Exception x = true ->
  cycle_step e cycles cycle s =
    (if names_browser (str_exn x)
     then recovered <- _recover_from_browser_crash (recovery e) ;;
          if recovered then ret Continue
          else log ERROR "[FAIL] Cannot continue - browser recovery failed" ;;
               ret Break
     else ret Continue) (failure_counted cycle x s1).
Proof.
  intros E Hx. unfold cycle_step, try_except.
  rewrite (bind_Raise _ _ _ _ _ E).
  destruct x; [discriminate | reflexivity | reflexivity].
Qed.

(** C3. When the [try] block of a cycle raises an [Exception], the failure
    counter goes up by one.  If the text of the exception, lower-cased,
    contains "driver" or "session", the recovery routine is called once; if
    it returns false the loop stops there, no further cycle runs and what
    is left of [run] is the final summary; if it returns true the loop
    goes on with the next cycle.  If the text contains neither word, no
    recovery is attempted and the loop goes on with the next cycle. *)
Theorem exception_in_cycle r cycles cycle k s x s1 :
  cycle_body (cycle_env_of r cycle) cycles cycle s = (Raise x, s1) ->
  is_Exception x = true ->
  let s2 := failure_counted cycle x s1 in
  failed_searches s2 = S (failed_searches s1) /\
  successful_searches s2 = successful_searches s1 /\
  recovery_attempts (trace s2) = recovery_attempts (trace s1) /\
  (names_browser (str_exn x) = false ->
   cycle_step (cycle_env_of r cycle) cycles cycle s = (Ok Continue, s2) /\
   (run_loop (cycle_env_of r) cycles cycle (S k) ;; finish_run r cycles) s
   = (run_loop (cycle_env_of r) cycles (S cycle) k ;; finish_run r cycles) s2) /\
  (names_browser (str_exn x) = true ->
   forall recovered s3,
     _recover_from_browser_crash (recovery (cycle_env_of r cycle)) s2
     = (Ok recovered, s3) ->
     recovery_attempts (trace s3) = S (recovery_attempts (trace s1)) /\
     if recovered
     then cycle_step (cycle_env_of r cycle) cycles cycle s = (Ok Continue, s3) /\
          (run_loop (cycle_env_of r) cycles cycle (S k) ;; finish_run r cycles) s
          = (run_loop (cycle_env_of r) cycles (S cycle) k ;; finish_run r cycles) s3
     else cycle_step (cycle_env_of r cycle) cycles cycle s
          = (Ok Break, given_up s3) /\
          recovery_attempts (trace (given_up s3))
          = S (recovery_attempts (trace s1)) /\
          (run_loop (cycle_env_of r) cycles cycle (S k) ;; finish_run r cycles) s
          = finish_run r cycles (given_up s3) /\
          exists rate,
            finish_run r cycles (given_up s3)
            = (Ok tt,
               set_trace
                 (trace (given_up s3) ++
                    [EvSummary (successful_searches s3) (failed_searches s3) rate
                       (clock_at_summary r - session_start_time s3) cycles])%list
                 (given_up s3))).
Proof.
  intros E Hx s2. pose proof (cycle_step_on_exception _ _ _ _ _ _ E Hx) as St.
  fold s2 in St.
  assert (C2 : recovery_attempts (trace s2) = recovery_attempts (trace s1)).
  { unfold s2, failure_counted. count_recoveries. }
  split; [reflexivity |]. split; [reflexivity |]. split; [exact C2 |]. split.
  - intros Hn. rewrite Hn in St. split; [exact St |].
    cbn [run_loop]. unfold bind at 1 2. rewrite St. reflexivity.
  - intros Hn recovered s3 Hr. rewrite Hn in St.
    rewrite (bind_Ok _ _ _ _ _ Hr) in St.
    pose proof (recover_is_one_attempt _ _ _ _ Hr) as C3.
    split; [lia |]. destruct recovered.
    + split; [exact St |].
      cbn [run_loop]. unfold bind at 1 2. rewrite St. reflexivity.
    + split; [exact St |]. split; [| split].
      * unfold given_up. count_recoveries.
      * cbn [run_loop]. unfold bind at 1 2. rewrite St. reflexivity.
      * destruct (finish_run_returns r cycles (given_up s3)) as (rate & F).
        exists rate. exact F.
Qed.

Lemma exception_in_cycle_witness :
  exists s1 s3,
    cycle_body (cycle_env_of Sample.session_lost 1) 2 1 Sample.ready
    = (Raise (OtherException "invalid session id"), s1) /\
    cycle_step (cycle_env_of Sample.session_lost 1) 2 1 Sample.ready
    = (Ok Break, given_up s3) /\
    failed_searches (failure_counted 1 (OtherException "invalid session id") s1)
    = S (failed_searches s1) /\
    recovery_attempts (trace (given_up s3)) = S (recovery_attempts (trace s1)) /\
    (run_loop (cycle_env_of Sample.session_lost) 2 1 2 ;;
     finish_run Sample.session_lost 2) Sample.ready
    = finish_run Sample.session_lost 2 (given_up s3).
Proof.
  destruct (cycle_body (cycle_env_of Sample.session_lost 1) 2 1 Sample.ready)
    as [res s1] eqn:E.
  assert (Hres : res = Raise (OtherException "invalid session id")).
  { vm_compute in E. inversion E. reflexivity. }
  subst res.
  destruct (_recover_from_browser_crash
              (recovery (cycle_env_of Sample.session_lost 1))
              (failure_counted 1 (OtherException "invalid session id") s1))
    as [rec s3] eqn:R.
  assert (Hrec : rec = Ok false).
  { revert R. unfold _recover_from_browser_crash, _initialize_browser.
    run_monad. cbn [driver set_trace failure_counted set_counters].
    destruct (driver s1); simpl; intros R; inversion R; reflexivity. }
  subst rec.
  destruct (exception_in_cycle Sample.session_lost 2 1 1 Sample.ready
              (OtherException "invalid session id") s1 E eq_refl)
    as (F & _ & _ & _ & B).
  destruct (B eq_refl false s3 R) as (_ & St & Cn & Rest & _).
  exists s1, s3. repeat split; assumption.
Defined.

(** ** Rows of the run log *)

#[export] Instance framing_untouched : Framing untouched.
Proof.
  unfold untouched. split; [split | ..]; intros; cbn in *;
    repeat match goal with H : _ /\ _ |- _ => destruct H end;
    repeat split; congruence.
Qed.

Lemma log_search_result_counters l q c qt ok loc t s r s' :
  _log_search_result l q c qt ok loc t s = (r, s') ->
  successful_searches s' = successful_searches s /\
  failed_searches s' = failed_searches s.
Proof.
  unfold _log_search_result. destruct (write_fault l); run_monad;
    intros H; inversion H; subst; split; reflexivity.
Qed.

(** after the counting: progress line and delay *)
Lemma cycle_end_untouched e cycles cycle :
  stable untouched
    (done <- gets successful_searches ;;
     print ("[PROGRESS] Progress: " ++ PyStr.of_nat done ++ "/"
              ++ PyStr.of_nat cycle ++ " successful") ;;
     if (Z.of_nat cycle <? cycles)%Z then _random_delay (delay e) else ret tt).
Proof. stable_steps. apply stable_random_delay. exact _. Qed.

(** A cycle whose [try] block runs to its end writes one row, stamped
    with the time of its log call, and moves one counter: the success
    counter with the status "success", the failure counter with "failed". *)
Lemma cycle_body_completes e cycles cycle s s' :
  cycle_body e cycles cycle s = (Ok tt, s') ->
  exists row,
    csv_file s' = (csv_file s ++ [row])%list /\
    row_timestamp row = timestamp (logging e) /\
    (response_status row = "success" /\
     successful_searches s' = S (successful_searches s) /\
     failed_searches s' = failed_searches s
     \/
     response_status row = "failed" /\
     successful_searches s' = successful_searches s /\
     failed_searches s' = S (failed_searches s)).
Proof.
  unfold cycle_body. intros H.
  apply bind_inv in H. destruct H as [(? & sa & Ha & H) | (? & _ & ?)]; [| discriminate].
  apply (stable_print untouched _) in Ha.
  apply bind_inv in H. destruct H as [([[q c] qt] & sb & Hb & H) | (? & _ & ?)]; [| discriminate].
  apply (stable_generate_search_query untouched _) in Hb.
  apply bind_inv in H. destruct H as [([[ok loc] t] & sc & Hc & H) | (? & _ & ?)]; [| discriminate].
  apply (stable_execute_search untouched _) in Hc.
  apply bind_inv in H. destruct H as [(? & sd & Hd & H) | (? & _ & ?)]; [| discriminate].
  pose proof (log_search_result_counters _ _ _ _ _ _ _ _ _ _ Hd) as [Hd1 Hd2].
  apply log_search_result_row in Hd.
  destruct (write_fault (logging e)); destruct Hd as [Hd3 Hd4]; [discriminate |].
  apply bind_inv in H. destruct H as [(? & se & He & H) | (? & _ & ?)]; [| discriminate].
  apply (cycle_end_untouched e cycles cycle) in H.
  unfold untouched in *.
  destruct Ha as (A1 & A2 & A3), Hb as (B1 & B2 & B3), Hc as (C1 & C2 & C3),
    H as (E1 & E2 & E3).
  exists [timestamp (logging e); q; loc; if ok then "success" else "failed";
          PyStr.fmt_2f t; c; qt].
  split; [rewrite E1 | split; [reflexivity |]].
  - destruct ok; unfold count_success, count_failure in He; run_monad in He;
      inversion He; subst; cbn [csv_file set_trace set_counters];
      rewrite Hd4; congruence.
  - destruct ok; unfold count_success, count_failure in He; run_monad in He;
      inversion He; subst;
      cbn [successful_searches failed_searches set_trace set_counters] in *;
      [left | right]; (split; [reflexivity |]); split; congruence.
Qed.

Lemma cycle_step_completes e cycles cycle s s' :
  cycle_body e cycles cycle s = (Ok tt, s') ->
  cycle_step e cycles cycle s = (Ok Continue, s').
Proof.
  intros E. unfold cycle_step, try_except.
  rewrite (bind_Ok _ _ _ _ _ E). reflexivity.
Qed.

Lemma rows_with_app status r1 r2 :
  rows_with status (r1 ++ r2)%list = rows_with status r1 + rows_with status r2.
Proof. unfold rows_with. rewrite filter_app, length_app. reflexivity. Qed.

(** the loop of [run], from any cycle and any state *)
Lemma run_loop_rows env cycles n : forall cycle s,
  cycles_complete env cycles cycle n s ->
  exists s' rows,
    run_loop env cycles cycle n s = (Ok tt, s') /\
    csv_file s' = (csv_file s ++ rows)%list /\
    List.length rows = n /\
    map row_timestamp rows
    = map (fun i => timestamp (logging (env i))) (seq cycle n) /\
    successful_searches s' = successful_searches s + rows_with "success" rows /\
    failed_searches s' = failed_searches s + rows_with "failed" rows.
Proof.
  induction n as [| n IH]; intros cycle s H.
  - exists s, []. cbn. rewrite app_nil_r. repeat split; lia.
  - destruct H as (s1 & B & H). destruct (IH _ _ H) as (s' & rows & L & C & N & T & Sc & Fc).
    destruct (cycle_body_completes _ _ _ _ _ B) as (row & C1 & T1 & K).
    exists s', (row :: rows). cbn [run_loop].
    rewrite (bind_Ok _ _ _ _ _ (cycle_step_completes _ _ _ _ _ B)).
    split; [exact L |]. split; [rewrite C, C1, <- app_assoc; reflexivity |].
    split; [simpl; lia |]. split; [cbn [map seq]; rewrite T1, T; reflexivity |].
    change (row :: rows) with ([row] ++ rows)%list. rewrite !rows_with_app.
    unfold rows_with at 1 3. cbn [filter].
    destruct K as [(St & K1 & K2) | (St & K1 & K2)]; rewrite St; cbn; lia.
Qed.

(** C2, as amended. In a run over N cycles in which the [try] block of
    every cycle runs to its end (each search returned an outcome, success
    or failure, and its row was written), the loop appends exactly one row
    per cycle, N rows in the order of the cycles, and the two counters
    count the rows with status "success" and with status "failed".  (The
    failure counter is also incremented by the [except] clause of the loop,
    which writes no row: such cycles are outside this statement.) *)
Theorem one_row_per_completed_cycle r N s :
  cycles_complete (cycle_env_of r) N 1 (Z.to_nat N) (loop_entry N s) ->
  exists s' rows,
    run r (Some N) s = (Ok tt, s') /\
    csv_file s' = (csv_file s ++ rows)%list /\
    List.length rows = Z.to_nat N /\
    map row_timestamp rows
    = map (fun i => timestamp (logging (cycle_env_of r i))) (seq 1 (Z.to_nat N)) /\
    successful_searches s' = rows_with "success" rows /\
    failed_searches s' = rows_with "failed" rows.
Proof.
  intros H. destruct (run_loop_rows _ _ _ _ _ H) as (s1 & rows & L & C & Len & T & Sc & Fc).
  destruct (print_final_summary_returns (clock_at_summary r) (successful_searches s1)
              (failed_searches s1) N s1) as (rate & F).
  eexists. exists rows.
  split.
  - unfold run. unfold bind at 1. unfold gets at 1.
    unfold bind at 1. unfold log at 1, emit at 1, modify at 1.
    unfold bind at 1. unfold modify at 1.
    fold (loop_entry N s). rewrite (bind_Ok _ _ _ _ _ L).
    unfold finish_run. run_monad. exact F.
  - cbn [csv_file successful_searches failed_searches set_trace].
    repeat split; assumption.
Qed.

Lemma one_row_per_completed_cycle_witness :
  exists s' rows,
    run Sample.two_good_cycles (Some 2%Z) Sample.ready = (Ok tt, s') /\
    csv_file s' = (csv_file Sample.ready ++ rows)%list /\
    List.length rows = Z.to_nat 2 /\
    map row_timestamp rows
    = map (fun i => timestamp (logging (cycle_env_of Sample.two_good_cycles i)))
          (seq 1 (Z.to_nat 2)) /\
    successful_searches s' = rows_with "success" rows /\
    failed_searches s' = rows_with "failed" rows.
Proof.
  apply (one_row_per_completed_cycle Sample.two_good_cycles 2 Sample.ready).
  cbn [cycles_complete Z.to_nat Pos.to_nat Pos.iter_op Nat.add].
  eexists. split; [vm_compute; reflexivity |].
  eexists. split; [vm_compute; reflexivity |]. exact I.
Defined.

(** C2, as stated, fails: in a run of two cycles where the log file cannot
    be opened in the first one, both cycles are attempted and the loop is
    not left early, the failure counter is incremented for the first cycle,
    and the log holds one row, none of them with status "failed". *)
Lemma counted_failure_without_row :
  exists s',
    run Sample.log_locked (Some 2%Z) Sample.ready = (Ok tt, s') /\
    cycles_started (trace s') = 2 /\
    successful_searches s' = 1 /\
    failed_searches s' = 1 /\
    List.length (data_rows s') = 1 /\
    rows_with "failed" (data_rows s') = 0.
Proof. eexists. split; [vm_compute; reflexivity |]. repeat split. Qed.

(** ** Teardown and the final summary *)

Lemma cleanups_snoc t ev :
  cleanups (t ++ [ev])%list = cleanups t + (if is_cleanup ev then 1 else 0).
Proof.
  unfold cleanups. rewrite filter_app, length_app. simpl.
  destruct (is_cleanup ev); reflexivity.
Qed.

Lemma summaries_snoc t ev :
  summaries (t ++ [ev])%list = summaries t + (if is_summary ev then 1 else 0).
Proof.
  unfold summaries. rewrite filter_app, length_app. simpl.
  destruct (is_summary ev); reflexivity.
Qed.

#[export] Instance framing_no_cleanup : Framing no_cleanup.
Proof.
  unfold no_cleanup. split; [split | ..]; intros; cbn [trace set_trace set_driver
    set_cfg set_start set_history]; try congruence.
  rewrite cleanups_snoc. destruct ev; try discriminate; cbn; lia.
Qed.

#[export] Instance csv_blind_no_cleanup : CsvBlind no_cleanup.
Proof. intros s f. reflexivity. Qed.

#[export] Instance counter_blind_no_cleanup : CounterBlind no_cleanup.
Proof. intros s a b. reflexivity. Qed.

#[export] Instance summary_blind_no_cleanup : SummaryBlind no_cleanup.
Proof.
  intros s a b c d e. unfold no_cleanup. cbn [trace set_trace].
  rewrite cleanups_snoc. cbn. lia.
Qed.

#[export] Instance framing_no_summary : Framing no_summary.
Proof.
  unfold no_summary. split; [split | ..]; intros; cbn [trace set_trace set_driver
    set_cfg set_start set_history]; try congruence.
  rewrite summaries_snoc. destruct ev; try discriminate; cbn; lia.
Qed.

#[export] Instance csv_blind_no_summary : CsvBlind no_summary.
Proof. intros s f. reflexivity. Qed.

#[export] Instance counter_blind_no_summary : CounterBlind no_summary.
Proof. intros s a b. reflexivity. Qed.

#[export] Instance cleanup_blind_no_summary : CleanupBlind no_summary.
Proof.
  intros s. unfold no_summary. cbn [trace set_trace].
  rewrite summaries_snoc. cbn. lia.
Qed.

(** [cleanup] is entered once per call, whatever the driver does *)
Lemma cleanup_counted f s r s' :
  cleanup f s = (r, s') -> cleanups (trace s') = S (cleanups (trace s)).
Proof.
  unfold cleanup. unfold bind at 1. unfold emit at 1, modify at 1.
  set (s0 := set_trace (trace s ++ [EvCleanup])%list s).
  assert (C0 : cleanups (trace s0) = S (cleanups (trace s))).
  { unfold s0. cbn [trace set_trace]. rewrite cleanups_snoc. cbn. lia. }
  intros H.
  assert (Q : no_cleanup s0 s').
  { revert H. generalize s0 r s'. change (stable no_cleanup
      (try_except_Exception
         (d <- gets driver ;;
          match d with
          | Some _ => driver_call Quit f ;; log INFO "[OK] Browser cleanup completed"
          | None => ret tt
          end)
         (fun e => log WARNING ("[WARNING] Cleanup warning: " ++ str_exn e)))).
    stable_steps. }
  unfold no_cleanup in Q. lia.
Qed.

Lemma main_handlers_stable R (HR : Framing R) bound x k :
  main_handlers bound x = Some k -> stable R k.
Proof.
  unfold main_handlers. destruct x; intros H; inversion H; subst; stable_steps.
Qed.

(** the program once the constructor has returned *)
Lemma main_after_init m s1 :
  __init__ (startup m) new_object = (Ok tt, s1) ->
  main m new_object
  = try_finally
      (fun _ => try_except
                  (try_finally (run (running m) None)
                               (cleanup (cleanup_fault m)))
                  (main_handlers true) s1)
      (print "[EXIT] AI Search Agent terminated") new_object.
Proof. intros E. unfold main, try_finally at 1 3. rewrite E. reflexivity. Qed.

(** what follows the [with] block adds no cleanup and no summary *)
Lemma main_tail R (HR : Framing R) (body : M unit) s1 sb rb :
  body s1 = (rb, sb) ->
  R sb (snd (try_finally (fun _ => try_except body (main_handlers true) s1)
                         (print "[EXIT] AI Search Agent terminated")
                         new_object)).
Proof.
  intros B. unfold try_finally, try_except. rewrite B.
  assert (P : forall (k : unit -> M unit) s r s',
             (forall u, stable R (k u)) ->
             bind (print "[EXIT] AI Search Agent terminated") k s = (r, s') ->
             R s s').
  { intros k s r s' Hk. apply stable_bind; [exact _ | apply stable_print; exact _ |].
    exact Hk. }
  destruct rb as [a | e].
  - destruct (bind _ _ sb) as [r s'] eqn:F. simpl.
    eapply P; [| exact F]. intros u. apply stable_ret. exact _.
  - destruct (main_handlers true e) as [k |] eqn:Hh.
    + destruct (k sb) as [[a | e'] sk] eqn:K;
        destruct (bind _ _ sk) as [r s'] eqn:F; simpl;
        (eapply R_trans; [eapply (main_handlers_stable R HR _ _ _ Hh), K |]);
        (eapply P; [| exact F]); intros u;
        first [apply stable_ret | apply stable_raise]; exact _.
    + destruct (bind _ _ sb) as [r s'] eqn:F. simpl.
      eapply P; [| exact F]. intros u. apply stable_raise. exact _.
Qed.

(** [run] is its first lines, the loop, and the summary *)
Lemma run_unfolded r cycles s :
  run r cycles s
  = (run_loop (cycle_env_of r) (planned_cycles cycles s) 1
              (Z.to_nat (planned_cycles cycles s)) ;;
     finish_run r (planned_cycles cycles s))
      (loop_entry (planned_cycles cycles s) s).
Proof. reflexivity. Qed.

(** when [run] returns, the summary is the last thing it did *)
Lemma run_summary r cycles s s2 :
  run r cycles s = (Ok tt, s2) ->
  (exists pre rate,
      trace s2
      = (pre ++ [EvSummary (successful_searches s2) (failed_searches s2) rate
                   (clock_at_summary r - session_start_time s2)
                   (planned_cycles cycles s)])%list) /\
  summaries (trace s2) = S (summaries (trace s)).
Proof.
  rewrite run_unfolded. intros H.
  apply bind_inv in H. destruct H as [(u & sl & L & F) | (? & _ & ?)]; [| discriminate].
  destruct (finish_run_returns r (planned_cycles cycles s) sl) as (rate & F').
  rewrite F' in F. inversion F; subst. split.
  - exists (trace sl), rate. reflexivity.
  - pose proof (stable_run_loop no_summary _ _ _ _ _ _ _ _ _ _ L) as Q.
    unfold no_summary in Q. cbn [trace set_trace]. rewrite summaries_snoc, Q.
    unfold loop_entry. cbn [trace set_trace set_counters].
    rewrite summaries_snoc. cbn. lia.
Qed.

Lemma recover_raises_only_interrupt r s e s' :
  _recover_from_browser_crash r s = (Raise e, s') -> e = KeyboardInterrupt.
Proof.
  unfold _recover_from_browser_crash, try_except_Exception, try_except.
  match goal with
  | |- context [match ?m s with _ => _ end] => destruct (m s) as [[a | x] s1]
  end; [discriminate |].
  destruct x; cbn [is_Exception]; run_monad; intros H; inversion H; reflexivity.
Qed.

Lemma cycle_step_raises_only_interrupt e cycles cycle s x s' :
  cycle_step e cycles cycle s = (Raise x, s') -> x = KeyboardInterrupt.
Proof.
  unfold cycle_step, try_except.
  destruct (bind (cycle_body e cycles cycle) _ s) as [[a | y] s1]; [discriminate |].
  assert (G : forall s0,
             (log ERROR ("[FAIL] Cycle " ++ PyStr.of_nat cycle ++ " failed: "
                           ++ str_exn y) ;;
              count_failure ;;
              if names_browser (str_exn y)
              then recovered <- _recover_from_browser_crash (recovery e) ;;
                   if recovered then ret Continue
                   else log ERROR "[FAIL] Cannot continue - browser recovery failed" ;;
                        ret Break
              else ret Continue) s0 = (Raise x, s') -> x = KeyboardInterrupt).
  { intros s0 H.
    apply bind_inv in H. destruct H as [(? & sa & _ & H) | (? & Hl & _)];
      [| run_monad in Hl; discriminate].
    apply bind_inv in H. destruct H as [(? & sb & _ & H) | (? & Hl & _)];
      [| unfold count_failure in Hl; run_monad in Hl; discriminate].
    destruct (names_browser (str_exn y)); [| discriminate].
    apply bind_inv in H. destruct H as [(b & sc & _ & H) | (? & Hr & Hx)].
    - destruct b; run_monad in H; discriminate.
    - inversion Hx; subst. eapply recover_raises_only_interrupt, Hr. }
  destruct y; [run_monad; discriminate | apply G | apply G].
Qed.

Lemma run_loop_raises_only_interrupt env cycles n : forall cycle s x s',
  run_loop env cycles cycle n s = (Raise x, s') -> x = KeyboardInterrupt.
Proof.
  induction n as [| n IH]; intros cycle s x s' H; cbn [run_loop] in H.
  - discriminate.
  - apply bind_inv in H. destruct H as [(c & s1 & _ & H) | (y & Hc & Hx)].
    + destruct c; [eapply IH, H | discriminate].
    + inversion Hx; subst. eapply cycle_step_raises_only_interrupt, Hc.
Qed.

Lemma run_raises_only_interrupt r cycles s x s' :
  run r cycles s = (Raise x, s') -> x = KeyboardInterrupt.
Proof.
  rewrite run_unfolded. intros H.
  apply bind_inv in H. destruct H as [(u & sl & _ & F) | (y & L & Hx)].
  - destruct (finish_run_returns r (planned_cycles cycles s) sl) as (rate & F').
    rewrite F' in F. discriminate.
  - inversion Hx; subst. eapply run_loop_raises_only_interrupt, L.
Qed.

Lemma roe_ret {A} (a : A) : raises_only_Exception (ret a).
Proof. intros s e s' H. discriminate. Qed.

Lemma roe_emit ev : raises_only_Exception (emit ev).
Proof. intros s e s' H. discriminate. Qed.

Lemma roe_gets {A} (f : agent -> A) : raises_only_Exception (gets f).
Proof. intros s e s' H. discriminate. Qed.

Lemma roe_modify g : raises_only_Exception (modify g).
Proof. intros s e s' H. discriminate. Qed.

Lemma roe_bind {A B} (m : M A) (k : A -> M B) :
  raises_only_Exception m -> (forall a, raises_only_Exception (k a)) ->
  raises_only_Exception (bind m k).
Proof.
  intros Hm Hk s e s' H.
  apply bind_inv in H. destruct H as [(a & s1 & _ & H) | (y & H & Hy)].
  - eapply Hk, H.
  - inversion Hy; subst. eapply Hm, H.
Qed.

Lemma roe_may_raise f :
  is_interrupt f = false -> raises_only_Exception (may_raise f).
Proof.
  intros Hf s e s' H. destruct f as [[| t | t] |]; try discriminate;
    inversion H; reflexivity.
Qed.

Lemma roe_driver_call op f :
  is_interrupt f = false -> raises_only_Exception (driver_call op f).
Proof.
  intros Hf. apply roe_bind; [apply roe_emit | intros _; apply roe_may_raise, Hf].
Qed.

Lemma roe_try_except_Exception {A} (m : M A) (h : exn -> M A) :
  raises_only_Exception m ->
  (forall e, is_Exception e = true -> raises_only_Exception (h e)) ->
  raises_only_Exception (try_except_Exception m h).
Proof.
  intros Hm Hh s e s'. unfold try_except_Exception, try_except.
  destruct (m s) as [[a | x] s1] eqn:E; [discriminate |].
  pose proof (Hm _ _ _ E) as Hx. rewrite Hx. apply Hh, Hx.
Qed.

Lemma recover_returns r s :
  recovery_uninterrupted r = true ->
  exists recovered s', _recover_from_browser_crash r s = (Ok recovered, s').
Proof.
  unfold recovery_uninterrupted. intros U.
  repeat (apply andb_prop in U; destruct U as [U ?]).
  repeat match goal with
         | H : negb _ = true |- _ => apply negb_true_iff in H
         end.
  destruct (_recover_from_browser_crash r s) as [[b | e] s'] eqn:E;
    [exists b, s'; reflexivity |].
  pose proof (recover_raises_only_interrupt _ _ _ _ E). subst e.
  assert (X : raises_only_Exception (_recover_from_browser_crash r)).
  { unfold _recover_from_browser_crash, _initialize_browser.
    apply roe_try_except_Exception.
    - apply roe_bind; [apply roe_emit | intros _].
      apply roe_bind; [apply roe_gets | intros d].
      apply roe_bind.
      + destruct d; [| apply roe_ret].
        apply roe_try_except_Exception;
          [apply roe_driver_call; assumption | intros _ _; apply roe_ret].
      + intros _. apply roe_bind.
        * unfold sleep. rewrite U.
          apply roe_bind; [apply roe_emit | intros _; apply roe_ret].
        * intros _. apply roe_bind; [| intros _; apply roe_ret].
          apply roe_try_except_Exception.
          -- apply roe_bind; [apply roe_may_raise; assumption | intros _].
             apply roe_bind; [apply roe_driver_call; assumption | intros _].
             apply roe_bind; [apply roe_modify | intros _].
             apply roe_bind; [apply roe_driver_call; assumption | intros _].
             apply roe_emit.
          -- intros x Hx. apply roe_bind; [apply roe_emit | intros _].
             intros s0 y s1 Hy. inversion Hy; subst. exact Hx.
    - intros x _. apply roe_bind; [apply roe_emit | intros _; apply roe_ret]. }
  specialize (X _ _ _ E). discriminate.
Qed.

Lemma cycle_step_returns e cycles cycle s :
  recovery_uninterrupted (recovery e) = true ->
  exists c s', cycle_step e cycles cycle s = (Ok c, s').
Proof.
  intros U. destruct (cycle_step e cycles cycle s) as [[c | x] s'] eqn:E;
    [exists c, s'; reflexivity |].
  exfalso. revert E. unfold cycle_step, try_except.
  destruct (bind (cycle_body e cycles cycle) _ s) as [[a | y] s1]; [discriminate |].
  assert (G : forall s0,
             (log ERROR ("[FAIL] Cycle " ++ PyStr.of_nat cycle ++ " failed: "
                           ++ str_exn y) ;;
              count_failure ;;
              if names_browser (str_exn y)
              then recovered <- _recover_from_browser_crash (recovery e) ;;
                   if recovered then ret Continue
                   else log ERROR "[FAIL] Cannot continue - browser recovery failed" ;;
                        ret Break
              else ret Continue) s0 <> (Raise x, s')).
  { intros s0 H.
    apply bind_inv in H. destruct H as [(? & sa & _ & H) | (? & Hl & _)];
      [| run_monad in Hl; discriminate].
    apply bind_inv in H. destruct H as [(? & sb & _ & H) | (? & Hl & _)];
      [| unfold count_failure in Hl; run_monad in Hl; discriminate].
    destruct (names_browser (str_exn y)); [| discriminate].
    apply bind_inv in H. destruct H as [(b & sc & _ & H) | (? & Hr & Hx)].
    - destruct b; run_monad in H; discriminate.
    - destruct (recover_returns (recovery e) sb U) as (b & sc & Hb). congruence. }
  destruct y; [run_monad; discriminate | apply G | apply G].
Qed.

Lemma run_loop_returns env cycles n : forall cycle s,
  (forall i, recovery_uninterrupted (recovery (env i)) = true) ->
  exists s', run_loop env cycles cycle n s = (Ok tt, s').
Proof.
  induction n as [| n IH]; intros cycle s U; cbn [run_loop].
  - exists s. reflexivity.
  - destruct (cycle_step_returns (env cycle) cycles cycle s (U cycle)) as (c & s1 & E).
    rewrite (bind_Ok _ _ _ _ _ E). destruct c; [apply IH, U |].
    exists s1. reflexivity.
Qed.

Lemma run_returns r cycles s :
  (forall i, recovery_uninterrupted (recovery (cycle_env_of r i)) = true) ->
  exists s', run r cycles s = (Ok tt, s').
Proof.
  intros U. rewrite run_unfolded.
  destruct (run_loop_returns (cycle_env_of r) (planned_cycles cycles s)
              (Z.to_nat (planned_cycles cycles s)) 1
              (loop_entry (planned_cycles cycles s) s) U) as (sl & L).
  rewrite (bind_Ok _ _ _ _ _ L).
  destruct (finish_run_returns r (planned_cycles cycles s) sl) as (rate & F).
  rewrite F. eexists. reflexivity.
Qed.

Lemma with_block_steps (r : M unit) (c : M unit) s1 rb sb :
  try_finally r c s1 = (rb, sb) ->
  exists rr s2 rc, r s1 = (rr, s2) /\ c s2 = (rc, sb).
Proof.
  unfold try_finally. destruct (r s1) as [[a | e] s2]; intros H;
    apply bind_inv in H;
    destruct H as [(u & s3 & Hc & H) | (y & Hc & _)];
    try (inversion H; subst); do 3 eexists; split; try reflexivity; exact Hc.
Qed.

(** ** The driver held by the agent *)

#[export] Instance steady_holds_driver : Steady holds_driver.
Proof. unfold holds_driver. split; intros; auto. Qed.

(** closes the steps that do not take the driver away *)
Ltac driver_leaf :=
  let H := fresh "H" in
  intros ? ? ? H; unfold holds_driver; revert H;
  unfold count_success, count_failure, truediv; run_monad;
  repeat match goal with
         | |- context [match ?x with _ => _ end] => destruct x
         | |- context [if ?b then _ else _] => destruct b
         end;
  intros H; inversion H; subst;
  cbn [driver set_trace set_driver set_csv set_counters set_history set_cfg
       set_start];
  first [ intros; assumption | intros; discriminate ].

Lemma holds_driver_generation_attempt a i :
  stable holds_driver (generation_attempt a i).
Proof. unfold generation_attempt, generate_content. stable_steps; driver_leaf. Qed.

Lemma holds_driver_generate_search_query g :
  stable holds_driver (generate_search_query g).
Proof.
  unfold generate_search_query, fallback_query.
  frame stable_bind.
  - generalize 0. induction max_retries as [| n IH]; intros i; cbn [generation_loop].
    + driver_leaf.
    + frame stable_bind; [apply holds_driver_generation_attempt |].
      intros [t |]; [driver_leaf | apply IH].
  - intros [t |]; stable_steps; driver_leaf.
Qed.

Lemma holds_driver_human_like_typing k text :
  forall i, stable holds_driver (_human_like_typing k i text).
Proof.
  induction text as [| c rest IH]; intros i; cbn [_human_like_typing];
    stable_steps; first [apply IH | driver_leaf].
Qed.

Lemma holds_driver_execute_search x q : stable holds_driver (execute_search x q).
Proof.
  unfold execute_search, search_body, _simulate_human_behavior, behavior_steps.
  frame stable_try_except.
  - stable_steps; first [apply holds_driver_human_like_typing | driver_leaf].
  - intros e k. destruct e; intros H; inversion H; subst; stable_steps;
      driver_leaf.
Qed.

Lemma holds_driver_log_search_result l q c t ok url time :
  stable holds_driver (_log_search_result l q c t ok url time).
Proof. unfold _log_search_result. stable_steps; driver_leaf. Qed.

Lemma holds_driver_countdown j n : stable holds_driver (countdown n j).
Proof.
  induction n as [| n IH]; cbn [countdown]; stable_steps;
    first [apply IH | driver_leaf].
Qed.

Lemma holds_driver_random_delay d : stable holds_driver (_random_delay d).
Proof.
  unfold _random_delay. stable_steps;
    first [apply holds_driver_countdown | driver_leaf].
Qed.

(** a launch replaces the driver, it never leaves the agent without one *)
Lemma holds_driver_initialize_browser b :
  stable holds_driver (_initialize_browser b).
Proof. unfold _initialize_browser. stable_steps; driver_leaf. Qed.

Lemma holds_driver_recover r :
  stable holds_driver (_recover_from_browser_crash r).
Proof.
  unfold _recover_from_browser_crash. stable_steps;
    first [apply holds_driver_initialize_browser | driver_leaf].
Qed.

Lemma holds_driver_print_final_summary now a b n :
  stable holds_driver (_print_final_summary now a b n).
Proof. unfold _print_final_summary. stable_steps; driver_leaf. Qed.

Lemma holds_driver_cycle_body e cycles cycle :
  stable holds_driver (cycle_body e cycles cycle).
Proof.
  unfold cycle_body. stable_steps;
    first [ apply holds_driver_generate_search_query
          | apply holds_driver_execute_search
          | apply holds_driver_log_search_result
          | apply holds_driver_random_delay
          | driver_leaf ].
Qed.

Lemma holds_driver_cycle_step e cycles cycle :
  stable holds_driver (cycle_step e cycles cycle).
Proof.
  unfold cycle_step. frame stable_try_except.
  - stable_steps; first [apply holds_driver_cycle_body | driver_leaf].
  - intros x k. destruct x; intros H; inversion H; subst; stable_steps;
      first [apply holds_driver_recover | driver_leaf].
Qed.

Lemma holds_driver_run_loop env cycles n :
  forall cycle, stable holds_driver (run_loop env cycles cycle n).
Proof.
  induction n as [| n IH]; intros cycle; cbn [run_loop].
  - driver_leaf.
  - frame stable_bind; [apply holds_driver_cycle_step |].
    intros [|]; [apply IH | driver_leaf].
Qed.

Lemma holds_driver_run r cycles : stable holds_driver (run r cycles).
Proof.
  unfold run, finish_run. stable_steps;
    first [ apply holds_driver_run_loop | apply holds_driver_print_final_summary
          | driver_leaf ].
Qed.

(** the constructor returns with the browser it launched *)
Lemma constructed_with_driver u s s1 :
  __init__ u s = (Ok tt, s1) -> driver s1 <> None.
Proof.
  unfold __init__. intros H.
  do 6 (apply bind_inv in H;
        destruct H as [(? & ? & _ & H) | (? & _ & H)]; [| discriminate]).
  apply bind_inv in H. destruct H as [([] & sb & B & H) | (? & _ & H)];
    [| discriminate].
  assert (D : driver sb <> None).
  { revert B. unfold _initialize_browser.
    destruct (service_fault (browser u)) as [[| |] |];
      destruct (launch_fault (browser u)) as [[| |] |];
      destruct (script_fault (browser u)) as [[| |] |];
      run_monad; intros B; inversion B; subst; discriminate. }
  revert H. unfold _setup_csv_logging.
  destruct (csv_fault u); run_monad; intros H; inversion H; subst; exact D.
Qed.

(** [cleanup] on an agent that holds a driver *)
Lemma cleanup_with_driver f s :
  driver s <> None ->
  cleanup f s
  = (match f with
     | Some e => if is_Exception e then Ok tt else Raise e
     | None => Ok tt
     end,
     set_trace (trace s ++ teardown_events f)%list s).
Proof.
  intros D. unfold cleanup, teardown_events.
  destruct s as [c h d v t0 a b t]. cbn [driver] in D.
  destruct d as [n |]; [| congruence].
  destruct f as [[| |] |]; run_monad; cbn [driver set_trace trace];
    unfold set_trace; cbn [trace cfg search_history driver csv_file
      session_start_time successful_searches failed_searches];
    rewrite <- ?app_assoc; reflexivity.
Qed.

(** after the [with] block [main] only prints *)
Lemma main_tail_prints (body : M unit) s1 rb sb :
  body s1 = (rb, sb) ->
  exists post,
    trace (snd (try_finally (fun _ => try_except body (main_handlers true) s1)
                            (print "[EXIT] AI Search Agent terminated")
                            new_object))
    = (trace sb ++ post)%list /\
    forallb is_print post = true.
Proof.
  intros B. unfold try_finally, try_except. rewrite B.
  destruct rb as [a | [| x | x]]; cbn [main_handlers]; run_monad;
    try destruct (debug_mode (cfg _)); cbn [snd trace set_trace];
    rewrite <- ?app_assoc; eexists; (split; [reflexivity | reflexivity]).
Qed.

(** C9, as amended. Once the agent has been constructed, the browser
    session is torn down by [cleanup] on every way out of the program:
    after the last cycle, after an interrupt, after a failed recovery, after
    an exception that escapes [run].  Whatever [run] did, the agent still
    holds a driver when it ends; [cleanup] is then entered, exactly once,
    and tells that driver to quit, and nothing follows in the program but
    the line logged about the quit and printed lines, so the quit is the
    last thing asked of the driver.  [run] lets nothing out but a
    [KeyboardInterrupt], which can only come from inside the recovery
    routine; whenever [run] returns (all cycles done, an interrupt caught in
    a cycle, a recovery that failed) the summary of the two counters, the
    rate and the session duration is the last thing it did, and it is
    printed once. *)
Theorem teardown_and_summary m s1 :
  __init__ (startup m) new_object = (Ok tt, s1) ->
  (exists rr s2 post,
      run (running m) None s1 = (rr, s2) /\
      driver s2 <> None /\
      trace (snd (main m new_object))
      = (trace s2 ++ teardown_events (cleanup_fault m) ++ post)%list /\
      forallb is_print post = true) /\
  cleanups (trace (snd (main m new_object))) = 1 /\
  (forall x s2, run (running m) None s1 = (Raise x, s2) -> x = KeyboardInterrupt) /\
  (forall s2,
      run (running m) None s1 = (Ok tt, s2) ->
      (exists pre rate,
          trace s2
          = (pre ++ [EvSummary (successful_searches s2) (failed_searches s2) rate
                       (clock_at_summary (running m) - session_start_time s2)
                       (max_cycles (cfg s1))])%list) /\
      summaries (trace (snd (main m new_object))) = 1) /\
  ((forall i,
       recovery_uninterrupted (recovery (cycle_env_of (running m) i)) = true) ->
   exists s2, run (running m) None s1 = (Ok tt, s2)).
Proof.
  intros E.
  assert (Ic : no_cleanup new_object s1)
    by (eapply stable_init; first [exact E | exact _]).
  assert (Is : no_summary new_object s1)
    by (eapply stable_init; first [exact E | exact _]).
  unfold no_cleanup in Ic. unfold no_summary in Is. cbn in Ic, Is.
  rewrite (main_after_init _ _ E).
  destruct (try_finally (run (running m) None) (cleanup (cleanup_fault m)) s1)
    as [rb sb] eqn:B.
  pose proof (main_tail no_cleanup _ _ _ _ _ B) as Tc.
  pose proof (main_tail no_summary _ _ _ _ _ B) as Ts.
  unfold no_cleanup in Tc. unfold no_summary in Ts.
  destruct (with_block_steps _ _ _ _ _ B) as (rr & s2 & rc & Rn & Cl).
  assert (D : driver s2 <> None).
  { apply (holds_driver_run _ _ _ _ _ Rn), (constructed_with_driver _ _ _ E). }
  split; [| split; [| split; [| split]]].
  - destruct (main_tail_prints _ _ _ _ B) as (post & T & P).
    exists rr, s2, post. repeat split; try assumption.
    rewrite T. rewrite (cleanup_with_driver _ _ D) in Cl.
    inversion Cl; subst sb. cbn [trace set_trace].
    rewrite <- app_assoc. reflexivity.
  - rewrite Tc, (cleanup_counted _ _ _ _ Cl).
    assert (Q : no_cleanup s1 s2)
      by (eapply stable_run; first [exact Rn | exact _]).
    unfold no_cleanup in Q. lia.
  - intros x s2'. apply run_raises_only_interrupt.
  - intros s2' Rn'. rewrite Rn in Rn'. inversion Rn'; subst.
    destruct (run_summary _ _ _ _ Rn) as (Last & Cnt). split; [exact Last |].
    rewrite Ts.
    assert (Q : no_summary s2' sb)
      by (eapply stable_cleanup; first [exact Cl | exact _]).
    unfold no_summary in Q. lia.
  - apply run_returns.
Qed.

Lemma teardown_and_summary_witness :
  (exists pre post,
      trace (snd (main Sample.program_ok new_object))
      = (pre ++ [EvCleanup; EvDriver Quit;
                 EvLog INFO "[OK] Browser cleanup completed"] ++ post)%list /\
      forallb is_print post = true) /\
  cleanups (trace (snd (main Sample.program_ok new_object))) = 1 /\
  summaries (trace (snd (main Sample.program_ok new_object))) = 1.
Proof.
  destruct (__init__ (startup Sample.program_ok) new_object) as [r s1] eqn:E.
  assert (Hr : r = Ok tt) by (vm_compute in E; inversion E; reflexivity).
  subst r.
  destruct (teardown_and_summary Sample.program_ok s1 E) as (Q & C & _ & S & R).
  split; [| split; [exact C |]].
  - destruct Q as (rr & s2 & post & _ & _ & T & P).
    exists (trace s2), post. split; [exact T | exact P].
  - assert (U : forall i,
               recovery_uninterrupted
                 (recovery (cycle_env_of (running Sample.program_ok) i)) = true)
      by (intros [| [| i]]; reflexivity).
    destruct (R U) as (s2 & Rn).
    exact (proj2 (S s2 Rn)).
Defined.

(** C9, as stated, fails for a failure during startup: when the log file
    cannot be created after the browser has been launched, the program ends
    without entering [cleanup], without quitting the browser and without a
    summary. *)
Lemma startup_failure_skips_cleanup_and_summary :
  existsb (fun ev => match ev with EvDriver Launch => true | _ => false end)
          (trace (snd (main Sample.program_log_locked new_object))) = true /\
  cleanups (trace (snd (main Sample.program_log_locked new_object))) = 0 /\
  existsb (fun ev => match ev with EvDriver Quit => true | _ => false end)
          (trace (snd (main Sample.program_log_locked new_object))) = false /\
  summaries (trace (snd (main Sample.program_log_locked new_object))) = 0.
Proof. repeat split; vm_compute; reflexivity. Qed.

(** * Further properties of the agent *)

(** ** Cleaning the answer of the service *)

Lemma lstrip_suffix p s :
  exists pre, s = pre ++ PyStr.lstrip p s.
Proof.
  induction s as [| c r IH]; simpl.
  - exists EmptyString. reflexivity.
  - destruct (p c).
    + destruct IH as (pre & E). exists (String c pre). simpl. congruence.
    + exists EmptyString. reflexivity.
Qed.

Lemma rstrip_cons p c r :
  PyStr.rstrip p (String c r)
  = match PyStr.rstrip p r with
    | EmptyString => if p c then EmptyString else String c EmptyString
    | r' => String c r'
    end.
Proof. reflexivity. Qed.

Lemma rstrip_prefix p s :
  exists post, s = PyStr.rstrip p s ++ post.
Proof.
  induction s as [| c r IH].
  - exists EmptyString. reflexivity.
  - destruct IH as (post & E). rewrite rstrip_cons.
    destruct (PyStr.rstrip p r) as [| c' r'] eqn:R.
    + destruct (p c).
      * exists (String c r). reflexivity.
      * exists r. reflexivity.
    + exists post. simpl. simpl in E. congruence.
Qed.

Lemma lstrip_first p s c :
  first_char (PyStr.lstrip p s) = Some c -> p c = false.
Proof.
  induction s as [| a r IH]; simpl; [discriminate |].
  destruct (p a) eqn:Pa; [exact IH |].
  simpl. intros H. inversion H; subst. exact Pa.
Qed.

Lemma rstrip_last p s c :
  last_char (PyStr.rstrip p s) = Some c -> p c = false.
Proof.
  induction s as [| a r IH]; [discriminate |].
  rewrite rstrip_cons.
  destruct (PyStr.rstrip p r) as [| c' r'] eqn:R.
  - destruct (p a) eqn:Pa; [discriminate |].
    simpl. intros H. inversion H; subst. exact Pa.
  - intros H. apply IH. exact H.
Qed.

Lemma rstrip_first p s c :
  first_char (PyStr.rstrip p s) = Some c -> first_char s = Some c.
Proof.
  destruct s as [| a r]; [discriminate |].
  rewrite rstrip_cons.
  destruct (PyStr.rstrip p r); [destruct (p a); [discriminate |] |];
    simpl; intros H; exact H.
Qed.

Lemma strip_by_ends p s c :
  (first_char (PyStr.strip_by p s) = Some c -> p c = false) /\
  (last_char (PyStr.strip_by p s) = Some c -> p c = false).
Proof.
  unfold PyStr.strip_by. split.
  - intros H. apply rstrip_first in H. eapply lstrip_first, H.
  - apply rstrip_last.
Qed.

Lemma strip_by_infix p s :
  exists pre post, s = pre ++ PyStr.strip_by p s ++ post.
Proof.
  unfold PyStr.strip_by.
  destruct (lstrip_suffix p s) as (pre & E1).
  destruct (rstrip_prefix p (PyStr.lstrip p s)) as (post & E2).
  exists pre, post. rewrite <- E2. exact E1.
Qed.

Lemma append_assoc_string (a b c : string) : (a ++ b) ++ c = a ++ (b ++ c).
Proof. induction a as [| x a IH]; simpl; [reflexivity | rewrite IH; reflexivity]. Qed.

(** X1. Cleaning the answer of the service only removes characters from
    its two ends, and what is left neither begins nor ends with a single
    quote. *)
Theorem clean_reply_trims text :
  (exists pre post, text = pre ++ clean_reply text ++ post) /\
  first_char (clean_reply text) <> Some single_quote /\
  last_char (clean_reply text) <> Some single_quote.
Proof.
  unfold clean_reply, PyStr.strip_char, PyStr.strip. split; [| split].
  - destruct (strip_by_infix PyStr.is_space text) as (a1 & b1 & E1).
    destruct (strip_by_infix (Ascii.eqb double_quote)
                (PyStr.strip_by PyStr.is_space text)) as (a2 & b2 & E2).
    destruct (strip_by_infix (Ascii.eqb single_quote)
                (PyStr.strip_by (Ascii.eqb double_quote)
                   (PyStr.strip_by PyStr.is_space text))) as (a3 & b3 & E3).
    exists (a1 ++ a2 ++ a3), (b3 ++ b2 ++ b1).
    rewrite E1 at 1. rewrite E2 at 1. rewrite E3 at 1.
    rewrite !append_assoc_string. reflexivity.
  - intros H. apply strip_by_ends in H. rewrite Ascii.eqb_refl in H. discriminate.
  - intros H. apply strip_by_ends in H. rewrite Ascii.eqb_refl in H. discriminate.
Qed.

(** ** Typing *)

Lemma append_empty_r (a : string) : a ++ EmptyString = a.
Proof. induction a as [| x a IH]; simpl; [reflexivity | rewrite IH; reflexivity]. Qed.

Lemma typed_snoc t ev :
  typed (t ++ [ev])%list
  = typed t ++ match ev with
               | EvDriver (SendKeys keys) => keys
               | _ => EmptyString
               end.
Proof.
  induction t as [| e t IH]; simpl.
  - destruct ev as [| | [] | | | |]; simpl; rewrite ?append_empty_r; reflexivity.
  - destruct e as [| | [] | | | |]; simpl; rewrite IH;
      rewrite ?append_assoc_string; reflexivity.
Qed.

Lemma send_keys_count_snoc t ev :
  List.length (filter is_send_keys (t ++ [ev])%list)
  = List.length (filter is_send_keys t) + (if is_send_keys ev then 1 else 0).
Proof.
  rewrite filter_app, length_app. simpl.
  destruct (is_send_keys ev); reflexivity.
Qed.

(** X2. When the typing routine returns, it has sent the text to the page
    exactly, one character per [send_keys] call and in the order of the
    text. *)
Theorem typing_sends_the_text k text : forall i s s',
  _human_like_typing k i text s = (Ok tt, s') ->
  typed (trace s') = typed (trace s) ++ text /\
  List.length (filter is_send_keys (trace s'))
  = List.length (filter is_send_keys (trace s)) + String.length text.
Proof.
  induction text as [| c rest IH]; intros i s s' H.
  - cbn in H. inversion H; subst. rewrite append_empty_r. split; [| cbn; lia].
    reflexivity.
  - cbn [_human_like_typing] in H.
    apply bind_inv in H. destruct H as [(? & s1 & H1 & H) | (? & _ & ?)]; [| discriminate].
    apply bind_inv in H. destruct H as [(? & s2 & H2 & H) | (? & _ & ?)]; [| discriminate].
    apply bind_inv in H. destruct H as [(? & s3 & H3 & H) | (? & _ & ?)]; [| discriminate].
    apply IH in H. destruct H as (T & C).
    assert (E1 : trace s1 = (trace s ++ [EvDriver (SendKeys (String c EmptyString))])%list).
    { revert H1. unfold driver_call. run_monad.
      destruct (send_keys_fault (k i)); intros H1; inversion H1; reflexivity. }
    assert (E2 : trace s2 = (trace s1 ++ [EvSleep (key_delay (k i))])%list).
    { revert H2. run_monad.
      destruct (key_interrupted (k i)); intros H2; inversion H2; reflexivity. }
    assert (E3 : typed (trace s3) = typed (trace s2) /\
                 List.length (filter is_send_keys (trace s3))
                 = List.length (filter is_send_keys (trace s2))).
    { revert H3. destruct (thinking_pause (k i)); run_monad;
        [destruct (thinking_interrupted (k i)) |]; intros H3; inversion H3; subst;
        cbn [trace set_trace]; rewrite ?typed_snoc, ?send_keys_count_snoc;
        cbn [is_send_keys]; rewrite ?append_empty_r; split; try lia; reflexivity. }
    destruct E3 as (T3 & C3).
    rewrite T, C, T3, C3, E2, E1, !typed_snoc, !send_keys_count_snoc.
    cbn [is_send_keys String.length]. split; [| lia].
    rewrite !append_assoc_string. reflexivity.
Qed.

Lemma typing_sends_the_text_witness :
  typed (trace (snd (_human_like_typing (fun _ => Sample.keystroke) 0 "tides"
                                        Sample.ready)))
  = typed (trace Sample.ready) ++ "tides" /\
  List.length
    (filter is_send_keys
       (trace (snd (_human_like_typing (fun _ => Sample.keystroke) 0 "tides"
                                       Sample.ready))))
  = List.length (filter is_send_keys (trace Sample.ready)) + String.length "tides".
Proof.
  apply (typing_sends_the_text (fun _ => Sample.keystroke) "tides" 0 Sample.ready).
  vm_compute. reflexivity.
Defined.

(** ** The retry loop of the generator *)

Lemma sleeps_snoc t ev :
  sleeps (t ++ [ev])%list = sleeps t + (if is_sleep ev then 1 else 0).
Proof.
  unfold sleeps. rewrite filter_app, length_app. simpl.
  destruct (is_sleep ev); reflexivity.
Qed.

Ltac count_calls_and_sleeps :=
  cbn [trace set_trace set_history snd];
  rewrite ?service_calls_snoc, ?sleeps_snoc;
  cbn [is_service_call is_sleep]; lia.

(** one pass: one call of the service, and a sleep only after an exception
    in the first two passes *)
Lemma generation_attempt_counts a i s r s' :
  generation_attempt a i s = (r, s') ->
  service_calls (trace s') = S (service_calls (trace s)) /\
  sleeps (trace s') <= sleeps (trace s) + (if i <? max_retries - 1 then 1 else 0) /\
  (forall text, reply a = Reply text -> sleeps (trace s') = sleeps (trace s)).
Proof.
  unfold generation_attempt, generate_content.
  destruct (reply a) as [text | e] eqn:Er.
  - destruct (_validate_query (clean_reply text)) eqn:Ev; run_monad; rewrite ?Ev;
      intros H; inversion H; subst; clear H;
      (split; [count_calls_and_sleeps |]);
      (split; [destruct (i <? max_retries - 1); count_calls_and_sleeps |]);
      intros; count_calls_and_sleeps.
  - destruct e, (i <? max_retries - 1), (backoff_interrupted a); run_monad;
      intros H; inversion H; subst; clear H;
      (split; [count_calls_and_sleeps |]);
      (split; [count_calls_and_sleeps | intros; discriminate]).
Qed.

Lemma generation_loop_counts g n : forall i s r s',
  generation_loop g i n s = (r, s') ->
  service_calls (trace s) + (if n =? 0 then 0 else 1) <= service_calls (trace s') /\
  service_calls (trace s') <= service_calls (trace s) + n /\
  sleeps (trace s') <= sleeps (trace s) + Nat.min n (max_retries - 1 - i).
Proof.
  induction n as [| n IH]; intros i s r s' H; cbn [generation_loop] in H.
  - inversion H; subst. cbn. lia.
  - apply bind_inv in H. destruct H as [(o & s1 & H1 & H) | (e & H1 & _)];
      apply generation_attempt_counts in H1; destruct H1 as (C & S1 & _);
      unfold max_retries in *.
    + destruct o as [t |].
      * inversion H; subst. cbn [Nat.eqb].
        destruct (Nat.ltb_spec i (3 - 1)); lia.
      * apply IH in H. destruct H as (A & B & D). cbn [Nat.eqb].
        destruct (Nat.ltb_spec i (3 - 1)); destruct (n =? 0); lia.
    + cbn [Nat.eqb]. destruct (Nat.ltb_spec i (3 - 1)); lia.
Qed.

(** X3. One call of [generate_search_query] calls the text service at
    least once and at most three times and sleeps at most twice (the
    back-off after an exception in the first and in the second pass); when
    the first answer passes the validation there is one call and no
    sleep. *)
Theorem generation_effort_is_bounded g s :
  service_calls (trace s) + 1
    <= service_calls (trace (snd (generate_search_query g s)))
    <= service_calls (trace s) + 3 /\
  sleeps (trace (snd (generate_search_query g s))) <= sleeps (trace s) + 2 /\
  (forall text,
      reply (attempt_env_of g 0) = Reply text ->
      _validate_query (clean_reply text) = true ->
      service_calls (trace (snd (generate_search_query g s)))
      = service_calls (trace s) + 1 /\
      sleeps (trace (snd (generate_search_query g s))) = sleeps (trace s)).
Proof.
  unfold generate_search_query.
  destruct (generation_loop g 0 max_retries s) as [r s1] eqn:L.
  pose proof (generation_loop_counts _ _ _ _ _ _ L) as (A & B & C).
  unfold max_retries in *. cbn in A, C.
  assert (T : snd (bind (generation_loop g 0 3)
                     (fun r => match r with
                               | Some t => ret t
                               | None => fallback_query g
                               end) s) = s1
              \/ exists w, snd (bind (generation_loop g 0 3)
                     (fun r => match r with
                               | Some t => ret t
                               | None => fallback_query g
                               end) s)
                   = set_trace (trace s1 ++ [EvLog WARNING w])%list s1).
  { unfold bind. rewrite L. destruct r as [[t |] | e]; [left | right | left];
      try reflexivity.
    unfold fallback_query. run_monad. eexists. reflexivity. }
  split; [| split].
  - destruct T as [-> | (w & ->)]; [lia |]. count_calls_and_sleeps.
  - destruct T as [-> | (w & ->)]; [lia |]. count_calls_and_sleeps.
  - intros text Er Ev.
    assert (F : generation_attempt (attempt_env_of g 0) 0 s
                = (Ok (Some (clean_reply text,
                             PyStr.choice (pick_category (attempt_env_of g 0)) categories,
                             PyStr.choice (pick_query_type (attempt_env_of g 0)) query_types)),
                   snd (generation_attempt (attempt_env_of g 0) 0 s))).
    { destruct (generation_attempt (attempt_env_of g 0) 0 s) as [r0 s0] eqn:G.
      destruct (generation_attempt_cases _ _ _ _ _ G)
        as [(text' & Er' & _ & Hr & _) | ([Hr | Hr] & _)].
      - rewrite Er in Er'. inversion Er'; subst. reflexivity.
      - exfalso. revert G. unfold generation_attempt, generate_content.
        rewrite Er. run_monad. rewrite Ev. subst r0. discriminate.
      - exfalso. revert G. unfold generation_attempt, generate_content.
        rewrite Er. run_monad. rewrite Ev. subst r0. discriminate. }
    pose proof (generation_attempt_counts _ _ _ _ _ F) as (C1 & _ & S1).
    specialize (S1 _ Er).
    assert (L1 : generation_loop g 0 3 s
                 = (Ok (Some (clean_reply text,
                              PyStr.choice (pick_category (attempt_env_of g 0)) categories,
                              PyStr.choice (pick_query_type (attempt_env_of g 0)) query_types)),
                    snd (generation_attempt (attempt_env_of g 0) 0 s))).
    { cbn [generation_loop]. rewrite (bind_Ok _ _ _ _ _ F). reflexivity. }
    rewrite (bind_Ok _ _ _ _ _ L1). cbn [ret snd]. lia.
Qed.

Lemma generation_effort_is_bounded_witness :
  service_calls
    (trace (snd (generate_search_query (Sample.service_up "why do tides change")
                                       Sample.ready)))
  = service_calls (trace Sample.ready) + 1 /\
  sleeps
    (trace (snd (generate_search_query (Sample.service_up "why do tides change")
                                       Sample.ready)))
  = sleeps (trace Sample.ready).
Proof.
  destruct (generation_effort_is_bounded (Sample.service_up "why do tides change")
              Sample.ready) as (_ & _ & F).
  apply (F "why do tides change"); reflexivity.
Defined.

Lemma generation_loop_tags g n : forall i s q c t s',
  generation_loop g i n s = (Ok (Some (q, c, t)), s') ->
  In c categories /\ In t query_types.
Proof.
  induction n as [| n IH]; intros i s q c t s' H; cbn [generation_loop] in H.
  - discriminate.
  - apply bind_inv in H. destruct H as [(o & s1 & H1 & H) | (e & _ & ?)];
      [| discriminate].
    destruct o as [x |]; [| eapply IH, H].
    inversion H; subst.
    destruct (generation_attempt_cases _ _ _ _ _ H1)
      as [(text & _ & _ & Hr & _) | ([Hr | Hr] & _)]; try discriminate.
    inversion Hr; subst. split; apply choice_in; discriminate.
Qed.

Lemma last_n_last {A} n (l : list A) (x d : A) :
  0 < n -> last (PyStr.last_n n (l ++ [x])%list) d = x.
Proof.
  intros Hn. unfold PyStr.last_n. rewrite length_app. cbn [List.length].
  assert (E : skipn (List.length l + 1 - n) (l ++ [x])%list
              = (skipn (List.length l + 1 - n) l ++ [x])%list).
  { rewrite skipn_app.
    replace (List.length l + 1 - n - List.length l) with 0 by lia.
    reflexivity. }
  rewrite E. apply last_last.
Qed.

(** X4. What [generate_search_query] returns is tagged by where it comes
    from.  A query of the service carries one of the category labels and
    one of the query types, never the type "fallback", and it is the newest
    entry of the search history.  The fallback is "what is " followed by a
    category label, tagged "general" and "fallback", and it is not
    recorded in the history. *)
Theorem generated_query_tags g s q c t s' :
  generate_search_query g s = (Ok (q, c, t), s') ->
  (In c categories /\ In t query_types /\ t <> "fallback" /\
   _validate_query q = true /\
   last (search_history s') EmptyString = q)
  \/
  (c = "general" /\ t = "fallback" /\
   (exists label, In label categories /\ q = "what is " ++ label) /\
   search_history s' = search_history s).
Proof.
  intros H.
  destruct (generate_search_query_cases _ _ _ _ H)
    as [(q' & c' & t' & Hr & Hv & Hl & Hh) | [(Hr & Hh) | (Hr & _)]];
    inversion Hr; subst.
  - left. destruct (generation_loop_tags _ _ _ _ _ _ _ _ Hl) as (Hc & Ht).
    repeat split; try assumption.
    + intros ->. revert Ht. vm_compute. intuition discriminate.
    + rewrite Hh, remember_last_20. apply last_n_last. lia.
  - right. repeat split; try assumption.
    exists (PyStr.choice (pick_fallback g) categories).
    split; [apply choice_in; discriminate | reflexivity].
Qed.

Lemma generated_query_tags_witness :
  (In "general" categories /\ In "fallback" query_types /\ "fallback" <> "fallback" /\
   _validate_query "what is science" = true /\
   last (search_history
           (snd (generate_search_query Sample.service_down Sample.ready)))
        EmptyString = "what is science")
  \/
  ("general" = "general" /\ "fallback" = "fallback" /\
   (exists label, In label categories /\ "what is science" = "what is " ++ label) /\
   search_history (snd (generate_search_query Sample.service_down Sample.ready))
   = search_history Sample.ready).
Proof.
  refine (generated_query_tags Sample.service_down Sample.ready
            "what is science" "general" "fallback" _ _).
  vm_compute. reflexivity.
Defined.

(** ** Startup *)

#[export] Instance framing_same_csv : Framing same_csv.
Proof. unfold same_csv. split; [split | ..]; intros; cbn; congruence. Qed.

#[export] Instance counter_blind_same_csv : CounterBlind same_csv.
Proof. intros s a b. reflexivity. Qed.

#[export] Instance summary_blind_same_csv : SummaryBlind same_csv.
Proof. intros s a b c d e. reflexivity. Qed.

#[export] Instance cleanup_blind_same_csv : CleanupBlind same_csv.
Proof. intros s. reflexivity. Qed.

Lemma load_config_result o s :
  load_config o s
  = (if key_missing o
     then Raise (OtherException "GEMINI_API_KEY not set in .env file")
     else Ok tt,
     snd (load_config o s)) /\
  trace (snd (load_config o s)) = trace s /\
  driver (snd (load_config o s)) = driver s /\
  csv_file (snd (load_config o s)) = csv_file s /\
  gemini_api_key (cfg (snd (load_config o s))) = getenv (GEMINI_API_KEY o) EmptyString.
Proof.
  unfold load_config, key_missing, getenv. run_monad.
  destruct (GEMINI_API_KEY o) as [k |]; cbn [String.eqb orb];
    [destruct (String.eqb k EmptyString || String.eqb k "your_gemini_api_key_here")%bool |];
    repeat split.
Qed.

(** X5. Without a usable API key (the variable is absent, empty, or still
    the placeholder of the template) the constructor raises the
    [ValueError] of [load_config] before anything else is started: nothing
    is logged, no browser is launched and no log file is created. *)
Theorem startup_needs_api_key u s :
  key_missing (environ u) = true ->
  fst (__init__ u s)
  = Raise (OtherException "GEMINI_API_KEY not set in .env file") /\
  trace (snd (__init__ u s)) = trace s /\
  driver (snd (__init__ u s)) = driver s /\
  csv_file (snd (__init__ u s)) = csv_file s.
Proof.
  intros K. destruct (load_config_result (environ u) s) as (E & T & D & C & _).
  rewrite K in E. unfold __init__. rewrite (bind_Raise _ _ _ _ _ E).
  cbn [fst snd]. repeat split; assumption.
Qed.

Lemma startup_needs_api_key_witness :
  fst (__init__ {| environ := {| GEMINI_API_KEY := Some "your_gemini_api_key_here";
                                 EDGE_DRIVER_PATH := None; DEBUG_MODE := None;
                                 MAX_SEARCH_CYCLES := None; MIN_DELAY := None;
                                 MAX_DELAY := None |};
                   logging_fault := None; clock_at_start := 0;
                   gemini_fault := None; browser := Sample.launch_ok;
                   file_stamp := "20250101_100000"; csv_fault := None |}
                new_object)
  = Raise (OtherException "GEMINI_API_KEY not set in .env file").
Proof.
  refine (proj1 (startup_needs_api_key _ new_object _)). reflexivity.
Defined.

Lemma launches_snoc t ev :
  launches (t ++ [ev])%list = launches t + (if is_launch ev then 1 else 0).
Proof.
  unfold launches. rewrite filter_app, length_app. simpl.
  destruct (is_launch ev); reflexivity.
Qed.

(** X6. When the constructor returns, the agent is ready for [run]: the API
    key was usable, the run log holds the header row and nothing else, the
    search history is empty, one browser was launched and is the driver,
    and the session clock was started.  When the constructor raises, no
    log file was written. *)
Theorem constructor_postconditions u s r s1 :
  __init__ u s = (r, s1) ->
  match r with
  | Ok _ =>
      key_missing (environ u) = false /\
      gemini_api_key (cfg s1) = getenv (GEMINI_API_KEY (environ u)) EmptyString /\
      csv_file s1 = [csv_header] /\
      search_history s1 = [] /\
      driver s1 = Some 0 /\
      launches (trace s1) = S (launches (trace s)) /\
      session_start_time s1 = clock_at_start u
  | Raise _ => csv_file s1 = csv_file s
  end.
Proof.
  intros H. destruct r as [[] | e].
  - revert H. unfold __init__.
    destruct (load_config_result (environ u) s) as (E & T & D & C & G).
    destruct (key_missing (environ u));
      [rewrite (bind_Raise _ _ _ _ _ E); discriminate |].
    rewrite (bind_Ok _ _ _ _ _ E).
    unfold _initialize_gemini, _initialize_browser, _setup_csv_logging.
    destruct (logging_fault u) as [x |]; [run_monad; discriminate |].
    destruct (gemini_fault u) as [[| |] |]; try (run_monad; discriminate).
    destruct (service_fault (browser u)) as [[| |] |]; try (run_monad; discriminate).
    destruct (launch_fault (browser u)) as [[| |] |]; try (run_monad; discriminate).
    destruct (script_fault (browser u)) as [[| |] |]; try (run_monad; discriminate).
    destruct (csv_fault u) as [x |]; [run_monad; discriminate |].
    run_monad. intros H. inversion H; subst; clear H.
    cbn [cfg csv_file search_history driver trace session_start_time set_trace
         set_csv set_driver set_history set_start next_session].
    rewrite !launches_snoc, T. cbn [is_launch].
    repeat split; try assumption; lia.
  - assert (L : forall (A : Type) (m : M A) (k : A -> M unit) s0 s2 x,
               stable same_csv m ->
               (forall a s', k a s' = (Raise x, s2) -> csv_file s2 = csv_file s') ->
               bind m k s0 = (Raise x, s2) -> csv_file s2 = csv_file s0).
    { intros A m k s0 s2 x Sm Sk Hb. apply bind_inv in Hb.
      destruct Hb as [(a & s' & Hm & Hk) | (y & Hm & _)].
      - rewrite (Sk _ _ Hk). exact (Sm _ _ _ Hm).
      - exact (Sm _ _ _ Hm). }
    revert H. unfold __init__. revert s.
    intros ?. apply L; [unfold load_config; stable_steps | intros _].
    intros ?. apply L; [stable_steps | intros _].
    intros ?. apply L; [stable_steps | intros _].
    intros ?. apply L; [stable_steps | intros _].
    intros ?. apply L; [stable_steps | intros _].
    intros ?. apply L; [unfold _initialize_gemini; stable_steps | intros _].
    intros ?. apply L; [apply stable_initialize_browser; exact _ | intros _].
    intros ?. unfold _setup_csv_logging.
    destruct (csv_fault u); run_monad; intros H; inversion H; reflexivity.
Qed.

Lemma constructor_postconditions_witness :
  key_missing (environ Sample.startup_ok) = false /\
  gemini_api_key (cfg (snd (__init__ Sample.startup_ok new_object)))
  = getenv (GEMINI_API_KEY (environ Sample.startup_ok)) EmptyString /\
  csv_file (snd (__init__ Sample.startup_ok new_object)) = [csv_header] /\
  search_history (snd (__init__ Sample.startup_ok new_object)) = [] /\
  driver (snd (__init__ Sample.startup_ok new_object)) = Some 0 /\
  launches (trace (snd (__init__ Sample.startup_ok new_object)))
  = S (launches (trace new_object)) /\
  session_start_time (snd (__init__ Sample.startup_ok new_object))
  = clock_at_start Sample.startup_ok.
Proof.
  refine (constructor_postconditions Sample.startup_ok new_object (Ok tt) _ _).
  vm_compute. reflexivity.
Defined.

(** ** The entry point *)

Lemma cleanup_raises_only_interrupt f s e s' :
  cleanup f s = (Raise e, s') -> e = KeyboardInterrupt.
Proof.
  unfold cleanup. intros H.
  apply bind_inv in H. destruct H as [(? & s0 & _ & H) | (? & Hl & _)];
    [| run_monad in Hl; discriminate].
  revert H. unfold try_except_Exception, try_except.
  match goal with
  | |- context [match ?m s0 with _ => _ end] => destruct (m s0) as [[a | y] s1]
  end; [discriminate |].
  destruct y; cbn [is_Exception]; run_monad; intros H; inversion H; reflexivity.
Qed.

Lemma with_block_raises_only_interrupt r cycles f s e s' :
  try_finally (run r cycles) (cleanup f) s = (Raise e, s') -> e = KeyboardInterrupt.
Proof.
  unfold try_finally. destruct (run r cycles s) as [[a | x] s1] eqn:Rn; intros H;
    apply bind_inv in H; destruct H as [(? & s2 & Hc & H) | (y & Hc & Hy)].
  - discriminate.
  - inversion Hy; subst. eapply cleanup_raises_only_interrupt, Hc.
  - inversion H; subst. eapply run_raises_only_interrupt, Rn.
  - inversion Hy; subst. eapply cleanup_raises_only_interrupt, Hc.
Qed.

Lemma exit_line_last {A} (m : M A) s :
  exists pre,
    trace (snd (try_finally m (print "[EXIT] AI Search Agent terminated") s))
    = (pre ++ [EvPrint "[EXIT] AI Search Agent terminated"])%list.
Proof.
  unfold try_finally. destruct (m s) as [[a | e] sb]; exists (trace sb);
    reflexivity.
Qed.

(** the [except Exception] clause after a constructor that raised *)
Lemma main_after_failed_constructor m s e s1 :
  __init__ (startup m) s = (Raise e, s1) -> is_Exception e = true ->
  (exists text, fst (main m s) = Raise (OtherException text)) /\
  snd (main m s)
  = set_trace
      (trace s1 ++ [EvPrint ("[FATAL] Fatal error: " ++ str_exn e);
                    EvPrint "[EXIT] AI Search Agent terminated"])%list s1.
Proof.
  intros E He. unfold main, try_finally. rewrite E. run_monad.
  destruct e; [discriminate | |]; cbn [main_handlers]; run_monad;
    (split; [eexists; reflexivity |]); cbn [snd];
    unfold set_trace; cbn [trace cfg search_history driver csv_file
      session_start_time successful_searches failed_searches];
    rewrite <- app_assoc; reflexivity.
Qed.

(** X7. However the program ends, the last thing [main] does is print the
    exit line.  When the constructor returned, [main] returns normally
    whatever happened in [run] and [cleanup]; when the constructor was
    interrupted, [main] reports the interrupt and returns.  When the
    constructor raised an [Exception], the [except] clause prints the fatal
    error and then reads [agent], a name that was never bound: [main] ends
    with that second exception, after the exit line. *)
Theorem main_exit_paths m s :
  (exists pre,
      trace (snd (main m s))
      = (pre ++ [EvPrint "[EXIT] AI Search Agent terminated"])%list) /\
  (forall s1, __init__ (startup m) s = (Ok tt, s1) -> fst (main m s) = Ok tt) /\
  (forall s1,
      __init__ (startup m) s = (Raise KeyboardInterrupt, s1) ->
      main m s
      = (Ok tt,
         set_trace
           (trace s1 ++ [EvPrint "[WARNING] Program interrupted by user";
                         EvPrint "[EXIT] AI Search Agent terminated"])%list s1)) /\
  (forall e s1,
      __init__ (startup m) s = (Raise e, s1) -> is_Exception e = true ->
      (exists text, fst (main m s) = Raise (OtherException text)) /\
      snd (main m s)
      = set_trace
          (trace s1 ++ [EvPrint ("[FATAL] Fatal error: " ++ str_exn e);
                        EvPrint "[EXIT] AI Search Agent terminated"])%list s1).
Proof.
  split; [| split; [| split]].
  - unfold main. apply exit_line_last.
  - intros s1 E. unfold main, try_finally at 1. rewrite E.
    unfold try_except.
    destruct (try_finally (run (running m) None) (cleanup (cleanup_fault m)) s1)
      as [[a | e] sb] eqn:B.
    + destruct a. reflexivity.
    + pose proof (with_block_raises_only_interrupt _ _ _ _ _ _ B). subst e.
      reflexivity.
  - intros s1 E. unfold main, try_finally. rewrite E. run_monad.
    cbn [main_handlers]. run_monad. unfold set_trace. cbn [trace cfg
      search_history driver csv_file session_start_time successful_searches
      failed_searches]. rewrite <- app_assoc. reflexivity.
  - intros e s1 E He. unfold main, try_finally. rewrite E. run_monad.
    destruct e; [discriminate | |]; cbn [main_handlers]; run_monad;
      (split; [eexists; reflexivity |]); cbn [snd];
      unfold set_trace; cbn [trace cfg search_history driver csv_file
        session_start_time successful_searches failed_searches];
      rewrite <- app_assoc; reflexivity.
Qed.

Lemma main_exit_paths_witness :
  fst (main Sample.program_ok new_object) = Ok tt /\
  exists text,
    fst (main Sample.program_log_locked new_object) = Raise (OtherException text).
Proof.
  destruct (main_exit_paths Sample.program_ok new_object) as (_ & A & _).
  destruct (main_exit_paths Sample.program_log_locked new_object) as (_ & _ & _ & B).
  split.
  - destruct (__init__ (startup Sample.program_ok) new_object) as [r s1] eqn:E.
    assert (Hr : r = Ok tt) by (vm_compute in E; inversion E; reflexivity).
    subst r. exact (A s1 eq_refl).
  - destruct (__init__ (startup Sample.program_log_locked) new_object) as [r s1] eqn:E.
    assert (Hr : r = Raise (OtherException "[Errno 13] Permission denied"))
      by (vm_compute in E; inversion E; reflexivity).
    subst r. exact (proj1 (B _ s1 eq_refl eq_refl)).
Defined.

(** ** Interrupting the loop *)

(** X8. When Ctrl-C arrives inside a cycle, the loop logs it and stops: no
    further cycle runs, the interrupted cycle is not counted as a failure,
    and what is left of [run] is the final summary, printed with the
    counters as they stood when the interrupt arrived. *)
Theorem interrupt_in_cycle r cycles cycle k s s1 :
  cycle_body (cycle_env_of r cycle) cycles cycle s = (Raise KeyboardInterrupt, s1) ->
  cycle_step (cycle_env_of r cycle) cycles cycle s = (Ok Break, interrupt_noted s1) /\
  (run_loop (cycle_env_of r) cycles cycle (S k) ;; finish_run r cycles) s
  = finish_run r cycles (interrupt_noted s1) /\
  exists rate,
    finish_run r cycles (interrupt_noted s1)
    = (Ok tt,
       set_trace
         (trace (interrupt_noted s1) ++
            [EvSummary (successful_searches s1) (failed_searches s1) rate
               (clock_at_summary r - session_start_time s1) cycles])%list
         (interrupt_noted s1)).
Proof.
  intros E.
  assert (St : cycle_step (cycle_env_of r cycle) cycles cycle s
               = (Ok Break, interrupt_noted s1)).
  { unfold cycle_step, try_except. rewrite (bind_Raise _ _ _ _ _ E). reflexivity. }
  split; [exact St |]. split.
  - cbn [run_loop]. unfold bind at 1 2. rewrite St. reflexivity.
  - destruct (finish_run_returns r cycles (interrupt_noted s1)) as (rate & F).
    exists rate. exact F.
Qed.

Lemma interrupt_in_cycle_witness :
  exists s1,
    cycle_step (cycle_env_of Sample.interrupted_run 1) 2 1 Sample.ready
    = (Ok Break, interrupt_noted s1) /\
    successful_searches s1 = 1 /\ failed_searches s1 = 0 /\
    (run_loop (cycle_env_of Sample.interrupted_run) 2 1 2 ;;
     finish_run Sample.interrupted_run 2) Sample.ready
    = finish_run Sample.interrupted_run 2 (interrupt_noted s1).
Proof.
  destruct (cycle_body (cycle_env_of Sample.interrupted_run 1) 2 1 Sample.ready)
    as [res s1] eqn:E.
  assert (Hres : res = Raise KeyboardInterrupt /\
                 successful_searches s1 = 1 /\ failed_searches s1 = 0).
  { vm_compute in E. inversion E. repeat split. }
  destruct Hres as (-> & Hs & Hf).
  destruct (interrupt_in_cycle Sample.interrupted_run 2 1 1 Sample.ready s1 E)
    as (St & Rest & _).
  exists s1. repeat split; assumption.
Defined.

(** ** Recovery and teardown *)

Lemma initialize_browser_outcome b s :
  is_interrupt (service_fault b) = false ->
  is_interrupt (launch_fault b) = false ->
  is_interrupt (script_fault b) = false ->
  exists r s',
    _initialize_browser b s = (r, s') /\
    (if relaunch_clean b
     then r = Ok tt /\ driver s' = Some (next_session (driver s))
     else (exists e, r = Raise e /\ is_Exception e = true) /\
          (script_fault b = None \/ service_fault b <> None \/ launch_fault b <> None ->
           driver s' = driver s)).
Proof.
  unfold _initialize_browser, relaunch_clean.
  destruct (service_fault b) as [[| |] |]; try discriminate;
    destruct (launch_fault b) as [[| |] |]; try discriminate;
    destruct (script_fault b) as [[| |] |]; try discriminate;
    intros _ _ _; run_monad; do 2 eexists; (split; [reflexivity |]);
    first [ split; reflexivity
          | split; [eexists; split; reflexivity |];
            intros [H | [H | H]]; first [discriminate | congruence | reflexivity] ].
Qed.

(** up to the relaunch, the routine only logs, quits and waits *)
Lemma recover_then_relaunch r s :
  cooldown_interrupted r = false -> is_interrupt (quit_fault r) = false ->
  exists s0,
    driver s0 = driver s /\
    _recover_from_browser_crash r s
    = match (_initialize_browser (relaunch r) ;; ret true) s0 with
      | (Raise e, s') =>
          if is_Exception e
          then (Ok false,
                set_trace
                  (trace s' ++
                     [EvLog ERROR ("[FAIL] Browser recovery failed: " ++ str_exn e)])%list
                  s')
          else (Raise e, s')
      | ok => ok
      end.
Proof.
  intros U Q. unfold _recover_from_browser_crash.
  set (rest := bind (_initialize_browser (relaunch r)) (fun _ => ret true)).
  destruct (driver s) as [n |] eqn:D;
    [destruct (quit_fault r) as [[| |] |]; try discriminate |];
    rewrite U; run_monad; cbn [driver set_trace]; rewrite ?D; run_monad;
    match goal with
    | |- context [rest ?s0] =>
        exists s0; split; [cbn [driver set_trace]; congruence |];
        destruct (rest s0) as [[b | e] s']; [| destruct e]; reflexivity
    end.
Qed.

(** X9. Short of an interrupt, the recovery routine always returns, and it
    returns true exactly when the relaunch met no fault; an error of the
    old driver's [quit] changes nothing.  After a recovery that returned
    true the agent holds a new driver session; after one that failed before
    or at the launch it still holds the old one. *)
Theorem recovery_outcome r s :
  recovery_uninterrupted r = true ->
  exists s',
    _recover_from_browser_crash r s = (Ok (relaunch_clean (relaunch r)), s') /\
    (relaunch_clean (relaunch r) = true ->
     driver s' = Some (next_session (driver s)) /\ driver s' <> driver s) /\
    (service_fault (relaunch r) <> None \/ launch_fault (relaunch r) <> None ->
     driver s' = driver s).
Proof.
  unfold recovery_uninterrupted. intros U.
  repeat (apply andb_prop in U; destruct U as [U ?]).
  repeat match goal with
         | H : negb _ = true |- _ => apply negb_true_iff in H
         end.
  destruct (recover_then_relaunch r s) as (s0 & D & E); try assumption.
  rewrite E.
  destruct (initialize_browser_outcome (relaunch r) s0) as (r0 & s1 & I & O);
    try assumption.
  assert (N : forall d : option nat, Some (next_session d) <> d).
  { intros [n |]; [| discriminate]. cbn. intros X. inversion X. lia. }
  destruct (relaunch_clean (relaunch r)) eqn:C.
  - destruct O as (-> & Dr). rewrite (bind_Ok _ _ _ _ _ I).
    exists s1. split; [reflexivity |]. rewrite D in Dr. split.
    + intros _. split; [exact Dr | rewrite Dr; apply N].
    + intros F. exfalso. revert C F. unfold relaunch_clean.
      destruct (service_fault (relaunch r)), (launch_fault (relaunch r));
        intros; try discriminate; intuition congruence.
  - destruct O as ((e & -> & He) & Dr). rewrite (bind_Raise _ _ _ _ _ I), He.
    eexists. split; [reflexivity |]. cbn [driver set_trace]. split.
    + discriminate.
    + intros F. rewrite <- D. apply Dr. tauto.
Qed.

Lemma recovery_outcome_witness :
  fst (_recover_from_browser_crash Sample.relaunch_fails Sample.ready) = Ok false /\
  driver (snd (_recover_from_browser_crash Sample.relaunch_fails Sample.ready))
  = driver Sample.ready.
Proof.
  destruct (recovery_outcome Sample.relaunch_fails Sample.ready eq_refl)
    as (s' & E & _ & K).
  rewrite E. split; [reflexivity |]. apply K. right. discriminate.
Defined.

Lemma quits_snoc t ev :
  quits (t ++ [ev])%list = quits t + (if is_quit ev then 1 else 0).
Proof.
  unfold quits. rewrite filter_app, length_app. simpl.
  destruct (is_quit ev); reflexivity.
Qed.

(** X10. Short of an interrupt, [cleanup] always returns: an error of the
    driver's [quit] is logged as a warning and goes no further.  It tells
    the driver to quit once when the agent has one and not at all when it
    has none, and it leaves the driver attribute as it was. *)
Theorem cleanup_never_fails f s :
  is_interrupt f = false ->
  exists s',
    cleanup f s = (Ok tt, s') /\
    driver s' = driver s /\
    quits (trace s') = quits (trace s) + (match driver s with
                                          | Some _ => 1
                                          | None => 0
                                          end).
Proof.
  intros Hf. unfold cleanup. run_monad. cbn [driver set_trace].
  destruct (driver s) as [n |] eqn:D;
    [destruct f as [[| |] |]; try discriminate |];
    eexists; (split; [reflexivity |]); cbn [driver trace set_trace];
    rewrite ?quits_snoc; cbn [is_quit]; split; (assumption || lia).
Qed.

Lemma cleanup_never_fails_witness :
  exists s',
    cleanup (Some (OtherException "invalid session id")) Sample.ready = (Ok tt, s') /\
    driver s' = driver Sample.ready /\
    quits (trace s') = quits (trace Sample.ready) + 1.
Proof.
  exact (cleanup_never_fails (Some (OtherException "invalid session id"))
           Sample.ready eq_refl).
Defined.

(** ** The run log is append-only *)

Lemma rows_with_one status row :
  rows_with status [row] = if String.eqb (response_status row) status then 1 else 0.
Proof. unfold rows_with. cbn. destruct (String.eqb _ _); reflexivity. Qed.

(** what one [try] block of the loop does to the log and the counters,
    however it ends *)
Lemma cycle_body_rows e cycles cycle s rb sb :
  cycle_body e cycles cycle s = (rb, sb) ->
  exists rows,
    csv_file sb = (csv_file s ++ rows)%list /\
    List.length rows <= 1 /\
    Forall well_formed_row rows /\
    successful_searches sb = successful_searches s + rows_with "success" rows /\
    failed_searches sb = failed_searches s + rows_with "failed" rows.
Proof.
  assert (Z0 : forall s0 s1, untouched s0 s1 ->
               exists rows,
                 csv_file s1 = (csv_file s0 ++ rows)%list /\
                 List.length rows <= 1 /\
                 Forall well_formed_row rows /\
                 successful_searches s1 = successful_searches s0 + rows_with "success" rows /\
                 failed_searches s1 = failed_searches s0 + rows_with "failed" rows).
  { intros s0 s1 (A & B & C). exists []. rewrite app_nil_r. cbn.
    repeat split; auto; lia. }
  unfold cycle_body. intros H.
  apply bind_inv in H. destruct H as [(? & sa & Ha & H) | (? & Ha & _)];
    [| run_monad in Ha; discriminate].
  apply (stable_print untouched _) in Ha.
  apply bind_inv in H. destruct H as [([[q c] qt] & sg & Hg & H) | (? & Hg & _)];
    apply (stable_generate_search_query untouched _) in Hg;
    [| apply Z0; eapply R_trans; eassumption].
  apply bind_inv in H. destruct H as [([[ok loc] t] & sx & Hx & H) | (? & Hx & _)];
    apply (stable_execute_search untouched _) in Hx;
    [| apply Z0; eapply R_trans; [eassumption |]; eapply R_trans; eassumption].
  assert (U : untouched s sx)
    by (eapply R_trans; [eassumption |]; eapply R_trans; eassumption).
  clear Ha Hg Hx. destruct U as (U1 & U2 & U3).
  apply bind_inv in H. destruct H as [(? & sd & Hd & H) | (? & Hd & _)].
  - pose proof (log_search_result_counters _ _ _ _ _ _ _ _ _ _ Hd) as [Hd1 Hd2].
    apply log_search_result_row in Hd.
    destruct (write_fault (logging e)); destruct Hd as [Hd3 Hd4]; [discriminate |].
    apply bind_inv in H. destruct H as [(? & se & He & H) | (? & He & _)];
      [| destruct ok; unfold count_success, count_failure in He; run_monad in He;
         discriminate].
    apply (cycle_end_untouched e cycles cycle) in H. destruct H as (E1 & E2 & E3).
    exists [[timestamp (logging e); q; loc; if ok then "success" else "failed";
             PyStr.fmt_2f t; c; qt]].
    rewrite !rows_with_one.
    destruct ok; unfold count_success, count_failure in He; run_monad in He;
      inversion He; subst;
      cbn [csv_file successful_searches failed_searches set_trace set_counters] in *;
      (split; [congruence |]); (split; [cbn; lia |]);
      (split; [repeat constructor |]); cbn; lia.
  - pose proof (log_search_result_counters _ _ _ _ _ _ _ _ _ _ Hd) as [Hd1 Hd2].
    apply log_search_result_row in Hd.
    destruct (write_fault (logging e)); destruct Hd as [Hd3 Hd4]; [| discriminate].
    apply Z0. repeat split; congruence.
Qed.

#[export] Instance framing_failures_only : Framing failures_only.
Proof.
  unfold failures_only. split; [split | ..]; intros; cbn in *;
    repeat match goal with H : _ /\ _ |- _ => destruct H end;
    split; (congruence || lia).
Qed.

Lemma count_failure_failures_only : stable failures_only count_failure.
Proof.
  intros s r s' H. unfold count_failure in H. run_monad in H.
  inversion H; subst. unfold failures_only. cbn. lia.
Qed.

Lemma cycle_step_rows e cycles cycle s r s' :
  cycle_step e cycles cycle s = (r, s') ->
  exists rows,
    csv_file s' = (csv_file s ++ rows)%list /\
    List.length rows <= 1 /\
    Forall well_formed_row rows /\
    successful_searches s' = successful_searches s + rows_with "success" rows /\
    failed_searches s + rows_with "failed" rows <= failed_searches s'.
Proof.
  unfold cycle_step, try_except.
  destruct (bind (cycle_body e cycles cycle) (fun _ => ret Continue) s)
    as [[a | x] sb] eqn:B.
  - intros H. inversion H; subst.
    apply bind_inv in B. destruct B as [(? & s1 & B & K) | (? & _ & ?)];
      [| discriminate].
    inversion K; subst.
    destruct (cycle_body_rows _ _ _ _ _ _ B) as (rows & A1 & A2 & A3 & A4 & A5).
    exists rows. repeat split; try assumption. lia.
  - apply bind_inv in B. destruct B as [(? & s1 & _ & K) | (y & B & Hy)];
      [discriminate |].
    inversion Hy; subst y.
    destruct (cycle_body_rows _ _ _ _ _ _ B) as (rows & A1 & A2 & A3 & A4 & A5).
    assert (G : forall k : M control,
               stable same_csv k -> stable failures_only k ->
               k sb = (r, s') ->
               exists rows,
                 csv_file s' = (csv_file s ++ rows)%list /\
                 List.length rows <= 1 /\
                 Forall well_formed_row rows /\
                 successful_searches s' = successful_searches s + rows_with "success" rows /\
                 failed_searches s + rows_with "failed" rows <= failed_searches s').
    { intros k K1 K2 Hk. exists rows.
      pose proof (K1 _ _ _ Hk) as C1. destruct (K2 _ _ _ Hk) as (C2 & C3).
      unfold same_csv in C1. repeat split; try assumption; try congruence; lia. }
    destruct x; apply G; stable_steps;
      first [ apply stable_count_failure; exact _
            | apply count_failure_failures_only
            | apply stable_recover; exact _ ].
Qed.

Lemma run_loop_log env cycles n : forall cycle s r s',
  run_loop env cycles cycle n s = (r, s') ->
  exists rows,
    csv_file s' = (csv_file s ++ rows)%list /\
    List.length rows <= n /\
    Forall well_formed_row rows /\
    successful_searches s' = successful_searches s + rows_with "success" rows /\
    failed_searches s + rows_with "failed" rows <= failed_searches s'.
Proof.
  induction n as [| n IH]; intros cycle s r s' H; cbn [run_loop] in H.
  - inversion H; subst. exists []. rewrite app_nil_r. cbn. repeat split; auto; lia.
  - apply bind_inv in H. destruct H as [(c & s1 & St & H) | (e & St & _)];
      destruct (cycle_step_rows _ _ _ _ _ _ St) as (r1 & A1 & A2 & A3 & A4 & A5).
    + assert (X : exists r2,
                 csv_file s' = (csv_file s1 ++ r2)%list /\
                 List.length r2 <= n /\
                 Forall well_formed_row r2 /\
                 successful_searches s' = successful_searches s1 + rows_with "success" r2 /\
                 failed_searches s1 + rows_with "failed" r2 <= failed_searches s').
      { destruct c; [apply (IH _ _ _ _ H) |].
        inversion H; subst. exists []. rewrite app_nil_r. cbn.
        repeat split; auto; lia. }
      destruct X as (r2 & B1 & B2 & B3 & B4 & B5).
      exists (r1 ++ r2)%list. rewrite !rows_with_app, length_app, B1, A1, app_assoc.
      repeat split; try lia. apply Forall_app. split; assumption.
    + exists r1. repeat split; try assumption; lia.
Qed.

(** X11. Whatever happens during [run], the run log only grows: the header
    and the rows that were there stay as they are, and the rows added are at
    most one per planned cycle, each with seven columns and the status
    "success" or "failed".  At the end the success counter equals the
    number of rows added with status "success", and the failure counter is
    at least the number of rows added with status "failed". *)
Theorem run_log_is_append_only r cycles s :
  exists rows,
    csv_file (snd (run r cycles s)) = (csv_file s ++ rows)%list /\
    List.length rows <= Z.to_nat (planned_cycles cycles s) /\
    Forall well_formed_row rows /\
    successful_searches (snd (run r cycles s)) = rows_with "success" rows /\
    rows_with "failed" rows <= failed_searches (snd (run r cycles s)).
Proof.
  rewrite run_unfolded.
  set (N := planned_cycles cycles s).
  destruct (run_loop (cycle_env_of r) N 1 (Z.to_nat N) (loop_entry N s))
    as [rl sl] eqn:L.
  destruct (run_loop_log _ _ _ _ _ _ _ L) as (rows & A1 & A2 & A3 & A4 & A5).
  exists rows.
  assert (T : csv_file (snd ((run_loop (cycle_env_of r) N 1 (Z.to_nat N) ;;
                              finish_run r N) (loop_entry N s))) = csv_file sl /\
              successful_searches (snd ((run_loop (cycle_env_of r) N 1 (Z.to_nat N) ;;
                              finish_run r N) (loop_entry N s))) = successful_searches sl /\
              failed_searches (snd ((run_loop (cycle_env_of r) N 1 (Z.to_nat N) ;;
                              finish_run r N) (loop_entry N s))) = failed_searches sl).
  { destruct rl as [u | e].
    - rewrite (bind_Ok _ _ _ _ _ L).
      destruct (finish_run_returns r N sl) as (rate & F). rewrite F. repeat split.
    - rewrite (bind_Raise _ _ _ _ _ L). repeat split. }
  destruct T as (T1 & T2 & T3). rewrite T1, T2, T3.
  unfold loop_entry in *. cbn [csv_file successful_searches failed_searches
    set_counters set_trace] in *.
  repeat split; try assumption; lia.
Qed.

(** ** The delay between cycles *)

Lemma countdown_sleeps n : forall s,
  exists s',
    countdown n None s = (Ok tt, s') /\
    sleeps (trace s') = sleeps (trace s) + n /\
    untouched s s' /\ cfg s' = cfg s.
Proof.
  induction n as [| n IH]; intros s; cbn [countdown].
  - exists s. unfold untouched. repeat split; lia.
  - destruct (IH (set_trace (trace s ++ [EvSleep 1])%list s)) as (s' & E & C & U & G).
    exists s'.
    assert (E0 : sleep 1 false s
                 = (Ok tt, set_trace (trace s ++ [EvSleep 1])%list s)) by reflexivity.
    rewrite (bind_Ok _ _ _ _ _ E0).
    split; [exact E |]. cbn [trace set_trace] in C. rewrite sleeps_snoc in C.
    cbn [is_sleep] in C. split; [lia |]. split; [exact U | exact G].
Qed.

(** X12. With min_delay not above max_delay and no interrupt,
    [_random_delay] returns after sleeping one second at a time for a whole
    number of seconds between the two bounds.  With min_delay above
    max_delay it raises the [ValueError] of [random.randint] at once,
    without logging or sleeping. *)
Theorem random_delay_within_bounds d s :
  ((max_delay (cfg s) < min_delay (cfg s))%Z ->
   exists text, _random_delay d s = (Raise (OtherException text), s)) /\
  ((min_delay (cfg s) <= max_delay (cfg s))%Z -> interrupted_at d = None ->
   exists s' seconds,
     _random_delay d s = (Ok tt, s') /\
     (min_delay (cfg s) <= seconds <= max_delay (cfg s))%Z /\
     sleeps (trace s') = sleeps (trace s) + Z.to_nat seconds).
Proof.
  unfold _random_delay. split.
  - intros Hb. apply Z.ltb_lt in Hb. run_monad. rewrite Hb.
    eexists. reflexivity.
  - intros Hb Hi. assert (Hb' : (max_delay (cfg s) <? min_delay (cfg s))%Z = false)
      by (apply Z.ltb_ge; exact Hb).
    run_monad. rewrite Hb', Hi.
    set (seconds := (min_delay (cfg s)
                     + delay_draw d mod (max_delay (cfg s) - min_delay (cfg s) + 1))%Z).
    match goal with
    | |- context [countdown _ None ?s0] =>
        destruct (countdown_sleeps (Z.to_nat seconds) s0) as (s' & E & C & _)
    end.
    exists s', seconds. fold seconds. rewrite E. split; [reflexivity |]. split.
    + pose proof (Z.mod_pos_bound (delay_draw d)
                    (max_delay (cfg s) - min_delay (cfg s) + 1)%Z ltac:(lia)).
      unfold seconds. lia.
    + rewrite C. cbn [trace set_trace]. rewrite sleeps_snoc. cbn [is_sleep]. lia.
Qed.

Lemma random_delay_within_bounds_witness :
  exists s' seconds,
    _random_delay Sample.short_wait Sample.ready = (Ok tt, s') /\
    (min_delay (cfg Sample.ready) <= seconds <= max_delay (cfg Sample.ready))%Z /\
    sleeps (trace s') = sleeps (trace Sample.ready) + Z.to_nat seconds.
Proof.
  apply (proj2 (random_delay_within_bounds Sample.short_wait Sample.ready)).
  - cbn. lia.
  - reflexivity.
Defined.

(** ** A misconfigured delay range *)

#[export] Instance steady_same_cfg : Steady same_cfg.
Proof. unfold same_cfg. split; intros; congruence. Qed.

(** closes the steps that write no configuration *)
Ltac same_cfg_leaf :=
  let H := fresh "H" in
  intros ? ? ? H; unfold same_cfg; revert H;
  unfold count_success, count_failure; run_monad;
  repeat match goal with
         | |- context [match ?x with _ => _ end] => destruct x
         end;
  intros H; inversion H; subst; reflexivity.

Lemma same_cfg_generation_attempt a i : stable same_cfg (generation_attempt a i).
Proof. unfold generation_attempt, generate_content. stable_steps; same_cfg_leaf. Qed.

Lemma same_cfg_generate_search_query g : stable same_cfg (generate_search_query g).
Proof.
  unfold generate_search_query, fallback_query.
  frame stable_bind.
  - generalize 0. induction max_retries as [| n IH]; intros i; cbn [generation_loop].
    + same_cfg_leaf.
    + frame stable_bind; [apply same_cfg_generation_attempt |].
      intros [t |]; [same_cfg_leaf | apply IH].
  - intros [t |]; stable_steps; same_cfg_leaf.
Qed.

Lemma same_cfg_human_like_typing k text :
  forall i, stable same_cfg (_human_like_typing k i text).
Proof.
  induction text as [| c rest IH]; intros i; cbn [_human_like_typing];
    stable_steps; first [apply IH | same_cfg_leaf].
Qed.

Lemma same_cfg_execute_search x q : stable same_cfg (execute_search x q).
Proof.
  unfold execute_search, search_body, _simulate_human_behavior, behavior_steps.
  frame stable_try_except.
  - stable_steps; first [apply same_cfg_human_like_typing | same_cfg_leaf].
  - intros e k. destruct e; intros H; inversion H; subst; stable_steps;
      same_cfg_leaf.
Qed.

Lemma same_cfg_log_search_result l q c t ok url time :
  stable same_cfg (_log_search_result l q c t ok url time).
Proof. unfold _log_search_result. stable_steps; same_cfg_leaf. Qed.

Lemma same_cfg_print msg : stable same_cfg (print msg).
Proof. same_cfg_leaf. Qed.

Lemma cycle_body_with_empty_range e cycles cycle s rb sb :
  (max_delay (cfg s) < min_delay (cfg s))%Z -> (Z.of_nat cycle < cycles)%Z ->
  cycle_body e cycles cycle s = (rb, sb) ->
  untouched s sb
  \/ exists row text,
       csv_file sb = (csv_file s ++ [row])%list /\
       rb = Raise (OtherException text) /\ names_browser text = false /\
       successful_searches sb + failed_searches sb
       = S (successful_searches s + failed_searches s).
Proof.
  intros Hb Hc. apply Z.ltb_lt in Hb. apply Z.ltb_lt in Hc.
  unfold cycle_body. rewrite Hc. intros H.
  apply bind_inv in H. destruct H as [(? & sa & Ha & H) | (? & Ha & _)];
    [| run_monad in Ha; discriminate].
  pose proof (stable_print untouched _ _ _ _ _ Ha) as Ua.
  pose proof (same_cfg_print _ _ _ _ Ha) as Ca.
  apply bind_inv in H. destruct H as [([[q c] qt] & sg & Hg & H) | (? & Hg & _)];
    pose proof (stable_generate_search_query untouched _ _ _ _ _ Hg) as Ug;
    pose proof (same_cfg_generate_search_query _ _ _ _ Hg) as Cg;
    [| left; eapply R_trans; eassumption].
  apply bind_inv in H. destruct H as [([[ok loc] t] & sx & Hx & H) | (? & Hx & _)];
    pose proof (stable_execute_search untouched _ _ _ _ _ _ Hx) as Ux;
    pose proof (same_cfg_execute_search _ _ _ _ _ Hx) as Cx;
    [| left; eapply R_trans; [eassumption |]; eapply R_trans; eassumption].
  assert (U : untouched s sx)
    by (eapply R_trans; [eassumption |]; eapply R_trans; eassumption).
  assert (C : cfg sx = cfg s) by (unfold same_cfg in *; congruence).
  clear Ha Hg Hx Ua Ug Ux Ca Cg Cx. destruct U as (U1 & U2 & U3).
  apply bind_inv in H. destruct H as [(? & sd & Hd & H) | (? & Hd & _)];
    pose proof (log_search_result_counters _ _ _ _ _ _ _ _ _ _ Hd) as [Hd1 Hd2];
    pose proof (same_cfg_log_search_result _ _ _ _ _ _ _ _ _ _ Hd) as Cd;
    apply log_search_result_row in Hd;
    destruct (write_fault (logging e)); destruct Hd as [Hd3 Hd4]; try discriminate.
  - right. unfold same_cfg in Cd. rewrite C in Cd.
    revert H. unfold _random_delay, count_success, count_failure.
    destruct ok; run_monad;
      cbn [cfg set_trace set_counters successful_searches]; rewrite Cd, Hb;
      intros H; inversion H; subst;
      cbn [csv_file successful_searches failed_searches set_trace set_counters];
      do 2 eexists; (split; [rewrite Hd4, U1; reflexivity |]);
      (split; [reflexivity |]); (split; [reflexivity |]); lia.
  - left. unfold untouched. repeat split; congruence.
Qed.

(** X13. With min_delay above max_delay in the configuration, no cycle
    but the last runs to its end: the delay raises right after the row was
    written and the outcome counted.  So every such cycle that left a row in
    the log is counted twice, once for its outcome and once more as a
    failure, and the loop goes on with the next cycle. *)
Theorem empty_delay_range_counts_twice e cycles cycle s r s' row :
  (max_delay (cfg s) < min_delay (cfg s))%Z -> (Z.of_nat cycle < cycles)%Z ->
  cycle_step e cycles cycle s = (r, s') ->
  csv_file s' = (csv_file s ++ [row])%list ->
  r = Ok Continue /\
  successful_searches s' + failed_searches s'
  = successful_searches s + failed_searches s + 2.
Proof.
  intros Hb Hc St Hrow.
  assert (NoRow : forall sb k, untouched s sb -> stable same_csv k ->
                  k sb = (r, s') -> False).
  { intros sb k (U1 & _) K Hk. apply K in Hk. unfold same_csv in Hk.
    rewrite Hk, U1 in Hrow.
    apply (f_equal (@List.length _)) in Hrow. rewrite length_app in Hrow.
    cbn in Hrow. lia. }
  revert St. unfold cycle_step, try_except.
  destruct (bind (cycle_body e cycles cycle) (fun _ => ret Continue) s)
    as [[a | x] sb] eqn:B.
  - intros _. exfalso.
    apply bind_inv in B. destruct B as [([] & s1 & B & K) | (? & _ & ?)];
      [| discriminate].
    destruct (cycle_body_with_empty_range _ _ _ _ _ _ Hb Hc B)
      as [U | (row' & text & _ & X & _)]; [| discriminate].
    inversion K; subst.
    destruct (cycle_body_completes _ _ _ _ _ B) as (r0 & E & _).
    destruct U as (U1 & _). rewrite U1 in E.
    apply (f_equal (@List.length _)) in E. rewrite length_app in E. cbn in E. lia.
  - apply bind_inv in B. destruct B as [(? & s1 & _ & K) | (y & B & Hy)];
      [discriminate |].
    inversion Hy; subst y.
    destruct (cycle_body_with_empty_range _ _ _ _ _ _ Hb Hc B)
      as [U | (row' & text & Er & Hx & Hn & Cn)]; [| inversion Hx; subst x].
    + intros St. exfalso. destruct x.
      * eapply (NoRow sb); [exact U | | exact St]. stable_steps.
      * eapply (NoRow sb); [exact U | | exact St].
        stable_steps; first [ apply stable_count_failure; exact _
                            | apply stable_recover; exact _ ].
      * eapply (NoRow sb); [exact U | | exact St].
        stable_steps; first [ apply stable_count_failure; exact _
                            | apply stable_recover; exact _ ].
    + cbn [str_exn]. rewrite Hn. unfold count_failure. run_monad.
      intros St. inversion St; subst.
      cbn [successful_searches failed_searches set_counters set_trace].
      split; [reflexivity | lia].
Qed.

Lemma empty_delay_range_counts_twice_witness :
  exists s' row,
    cycle_step (Sample.cycle_ok "2025-01-01T10:00:00") 2 1 Sample.misconfigured
    = (Ok Continue, s') /\
    csv_file s' = (csv_file Sample.misconfigured ++ [row])%list /\
    successful_searches s' + failed_searches s'
    = successful_searches Sample.misconfigured
      + failed_searches Sample.misconfigured + 2.
Proof.
  destruct (cycle_step (Sample.cycle_ok "2025-01-01T10:00:00") 2 1
                       Sample.misconfigured) as [r s'] eqn:E.
  assert (Hrow : csv_file s'
                 = (csv_file Sample.misconfigured ++
                      [["2025-01-01T10:00:00"; "why do tides change";
                        "https://www.bing.com/search?q=tides"; "success"; "7.00";
                        "technology"; "what is"]])%list).
  { vm_compute in E. inversion E. reflexivity. }
  assert (Hb : (max_delay (cfg Sample.misconfigured)
                < min_delay (cfg Sample.misconfigured))%Z) by (cbn; lia).
  assert (Hc : (Z.of_nat 1 < 2)%Z) by lia.
  destruct (empty_delay_range_counts_twice _ _ _ _ _ _ _ Hb Hc E Hrow) as (-> & Cn).
  do 2 eexists. split; [reflexivity |]. split; [exact Hrow | exact Cn].
Defined.

(** ** A run of no cycles *)

(** X14. Asked for no cycle at all (zero or a negative number), [run]
    starts no search and writes no row; it still prints the final summary,
    with both counters at zero and a success rate of zero, and divides
    nothing. *)
Theorem run_of_no_cycles r N s :
  (N <= 0)%Z ->
  run r (Some N) s
  = (Ok tt,
     set_trace
       (trace s ++
          [EvLog INFO ("[START] Starting AI Search Agent - " ++ PyStr.of_Z N
                         ++ " cycles planned");
           EvSummary 0 0 0 (clock_at_summary r - session_start_time s) N])%list
       (set_counters 0 0 s)).
Proof.
  intros HN. rewrite run_unfolded. cbn [planned_cycles].
  replace (Z.to_nat N) with 0 by lia. cbn [run_loop].
  unfold finish_run, _print_final_summary, loop_entry. run_monad.
  cbn [successful_searches failed_searches set_counters set_trace trace
       session_start_time Nat.add Nat.ltb Nat.leb].
  unfold set_trace, set_counters.
  cbn [trace cfg search_history driver csv_file session_start_time
       successful_searches failed_searches].
  rewrite <- app_assoc. reflexivity.
Qed.

Lemma run_of_no_cycles_witness :
  run Sample.two_good_cycles (Some 0%Z) Sample.ready
  = (Ok tt,
     set_trace
       (trace Sample.ready ++
          [EvLog INFO ("[START] Starting AI Search Agent - " ++ PyStr.of_Z 0
                         ++ " cycles planned");
           EvSummary 0 0 0 (clock_at_summary Sample.two_good_cycles
                            - session_start_time Sample.ready) 0])%list
       (set_counters 0 0 Sample.ready)).
Proof. apply (run_of_no_cycles Sample.two_good_cycles 0 Sample.ready). lia. Defined.

(** ** A constructor that fails late *)

(** X15. When the constructor fails after the browser was launched (the
    script run right after the launch raises, or the log file cannot be
    created), the program ends with the browser still running: [main]
    neither enters [cleanup] nor tells the driver to quit. *)
Theorem late_startup_failure_leaves_browser m s e :
  key_missing (environ (startup m)) = false ->
  logging_fault (startup m) = None -> gemini_fault (startup m) = None ->
  service_fault (browser (startup m)) = None ->
  launch_fault (browser (startup m)) = None ->
  (script_fault (browser (startup m)) = Some e
   \/ script_fault (browser (startup m)) = None /\ csv_fault (startup m) = Some e) ->
  is_Exception e = true ->
  launches (trace (snd (main m s))) = S (launches (trace s)) /\
  quits (trace (snd (main m s))) = quits (trace s) /\
  cleanups (trace (snd (main m s))) = cleanups (trace s) /\
  driver (snd (main m s)) = Some 0.
Proof.
  intros K Hl Hg Hs Hla Hf He.
  destruct (load_config_result (environ (startup m)) s) as (E & T & _).
  rewrite K in E.
  assert (I : exists s1,
             __init__ (startup m) s = (Raise e, s1) /\
             launches (trace s1) = S (launches (trace s)) /\
             quits (trace s1) = quits (trace s) /\
             cleanups (trace s1) = cleanups (trace s) /\
             driver s1 = Some 0).
  { unfold __init__. rewrite (bind_Ok _ _ _ _ _ E).
    unfold _initialize_gemini, _initialize_browser, _setup_csv_logging.
    rewrite Hl, Hg, Hs, Hla.
    destruct Hf as [Hf | (Hf & Hc)]; rewrite Hf; try rewrite Hc;
      destruct e; try discriminate; run_monad;
      eexists; (split; [reflexivity |]);
      cbn [trace driver set_trace set_driver set_history set_start set_csv
           next_session];
      rewrite ?launches_snoc, ?quits_snoc, ?cleanups_snoc, T;
      cbn [is_launch is_quit is_cleanup]; repeat split; lia. }
  destruct I as (s1 & I & C1 & C2 & C3 & D).
  destruct (main_after_failed_constructor m s e s1 I He) as (_ & ->).
  cbn [trace driver set_trace]. unfold launches, quits, cleanups in *.
  rewrite !filter_app, !length_app.
  cbn [filter is_launch is_quit is_cleanup List.length].
  repeat split; try lia. exact D.
Qed.

Lemma late_startup_failure_leaves_browser_witness :
  launches (trace (snd (main Sample.program_log_locked new_object)))
  = S (launches (trace new_object)) /\
  quits (trace (snd (main Sample.program_log_locked new_object)))
  = quits (trace new_object) /\
  cleanups (trace (snd (main Sample.program_log_locked new_object)))
  = cleanups (trace new_object) /\
  driver (snd (main Sample.program_log_locked new_object)) = Some 0.
Proof.
  apply (late_startup_failure_leaves_browser Sample.program_log_locked new_object
           (OtherException "[Errno 13] Permission denied"));
    first [reflexivity | right; split; reflexivity].
Defined.
